(** * The file-descriptor table and syscall layer of [fs/vfs.go]

    A shallow embedding of the kernel-side file I/O layer: the inode
    (descriptor) table, the [fileHelper] stream wrapper, the syscall
    handlers and the dispatcher [fscall], followed by the properties
    the specification states about them.

    Conventions of the embedding.
    - The target is 32-bit x86 (the code registers [SYS_FSTAT64] and
      [SYS_FCNTL64], stores [int32] seconds in [Stat_t.Mtim.Sec] and
      reports the machine as x86_32): [uintptr] and [int] are 32 bits
      wide.  A [uintptr] is a [Z] in [0, 2^32); an [int] is a [Z] in
      [-2^31, 2^31); the conversions between them are written out.
    - [inodes] is a slice of pointers.  Every pointer stored in it comes
      from a distinct [new(Inode)] and is stored exactly once, so a
      [*Inode] that is reachable from the table is identified with its
      slot index, and the table is a [list Inode] updated in place.
    - A run-time panic of Go (index out of range, method call on a nil
      interface) is the outcome [Panic]; a loop that did not finish
      within the fuel it was given is [OutOfFuel].
    - Collaborators that live outside [fs/vfs.go] (the mounted root
      file system, the console, the syscall request helpers, the
      process-wide random generator) are the fields of the class
      [Platform]; the state they own is the abstract type [World]. *)

From Stdlib Require Import ZArith Lia String Ascii List.
From stdpp Require Import base list.

Open Scope Z_scope.

(** ** Machine words *)

Definition word_modulus : Z := 2 ^ 32.

(** [uintptr(i)] for an [int] [i]. *)
Definition uintptr_of_int (i : Z) : Z := i mod word_modulus.

(** [int(w)] for a [uintptr] [w]: two's complement reinterpretation. *)
Definition int_of_uintptr (w : Z) : Z :=
  (w + 2 ^ 31) mod word_modulus - 2 ^ 31.

(** [uint32(x)] and [int32(x)] conversions of wider integers. *)
Definition to_uint32 (x : Z) : Z := x mod 2 ^ 32.
Definition to_int32 (x : Z) : Z := (x + 2 ^ 31) mod 2 ^ 32 - 2 ^ 31.

(** ** Syscall numbers and error numbers (linux/386) *)

Definition SYS_READ : Z := 3.
Definition SYS_WRITE : Z := 4.
Definition SYS_CLOSE : Z := 6.
Definition SYS_IOCTL : Z := 54.
Definition SYS_FCNTL : Z := 55.
Definition SYS_UNAME : Z := 122.
Definition SYS_FSTAT64 : Z := 197.
Definition SYS_FCNTL64 : Z := 221.
Definition SYS_OPENAT : Z := 295.
Definition SYS_FSTATAT64 : Z := 300.
Definition SYS_RANDOM : Z := 355.

Definition ENOENT : Z := 2.
Definition EBADF : Z := 9.
Definition EINVAL : Z := 22.
Definition EROFS : Z := 30.

(** ** Go error values

    An [error] is an interface value; [nil] is [None] of [option error].
    [EOF] is the sentinel [io.EOF], [Errno] a [syscall.Errno],
    [ErrNotExist] the sentinel [os.ErrNotExist], [PathError] an
    [*os.PathError] wrapping another error. *)

Inductive error : Type :=
  | EOF
  | Errno (code : Z)
  | ErrNotExist
  | PathError (op path : string) (inner : error)
  | OtherError (msg : string).

(** [err == io.EOF]. *)
Definition is_EOF (e : error) : bool :=
  match e with EOF => true | _ => false end.

(** [os.IsNotExist]: unwraps a [PathError] once, then accepts the
    sentinel and the errno [ENOENT]. *)
Definition underlyingError (e : error) : error :=
  match e with PathError _ _ inner => inner | _ => e end.

Definition os_IsNotExist (e : error) : bool :=
  match underlyingError e with
  | ErrNotExist => true
  | Errno code => code =? ENOENT
  | _ => false
  end.

(** ** Outcomes of kernel code *)

Inductive result (A : Type) : Type :=
  | Ok (a : A)
  | Panic (why : string)
  | OutOfFuel.

Arguments Ok {A} a.
Arguments Panic {A} why.
Arguments OutOfFuel {A}.

#[global] Instance result_ret : MRet result := fun A a => Ok a.
#[global] Instance result_bind : MBind result := fun A B f m =>
  match m with
  | Ok a => f a
  | Panic why => Panic why
  | OutOfFuel => OutOfFuel
  end.

(** ** Memory

    The kernel and its caller share one address space.  Raw bytes are
    addressed by [bytes]; a [syscall.Stat_t] that a caller keeps at some
    address is seen through the typed view [stat_at], restricted to the
    three fields the handlers write. *)

Record Stat_t : Type := mkStat {
  Mode : Z;
  Mtim_Sec : Z;
  Size : Z
}.

Record Memory : Type := mkMemory {
  bytes : Z -> Z;
  stat_at : Z -> Stat_t
}.

Definition store_byte (m : Memory) (p b : Z) : Memory :=
  {| bytes := fun q => if q =? p then b else bytes m q;
     stat_at := stat_at m |}.

Fixpoint store_bytes (m : Memory) (p : Z) (bs : list Z) : Memory :=
  match bs with
  | [] => m
  | b :: bs' => store_bytes (store_byte m p b) (p + 1) bs'
  end.

Definition store_stat (m : Memory) (p : Z) (s : Stat_t) : Memory :=
  {| bytes := bytes m;
     stat_at := fun q => if q =? p then s else stat_at m q |}.

(** A [[]byte]: a view on memory, not a copy. *)
Record slice : Type := mkSlice {
  Data : Z;
  Len : Z
}.

(** [sys.UnsafeBuffer(p, n)]: no validation of any kind. *)
Definition UnsafeBuffer (p : Z) (n : Z) : slice :=
  {| Data := p; Len := n |}.

Definition slice_bytes (m : Memory) (b : slice) : list Z :=
  map (fun i => bytes m (Data b + Z.of_nat i)) (seq 0 (Z.to_nat (Len b))).

Definition string_of_bytes (bs : list Z) : string :=
  string_of_list_ascii (map (fun b => ascii_of_N (Z.to_N b)) bs).

Definition bytes_of_string (s : string) : list Z :=
  map (fun a => Z.of_N (N_of_ascii a)) (list_ascii_of_string s).

(** [cstring]: the scan for the terminating zero byte, then the view of
    the [n] bytes before it. *)
Fixpoint cstring_len (fuel : nat) (m : Memory) (p : Z) (n : Z) : result Z :=
  match fuel with
  | O => OutOfFuel
  | S fuel' =>
      if bytes m p =? 0 then Ok n else cstring_len fuel' m (p + 1) (n + 1)
  end.

Definition cstring (fuel : nat) (m : Memory) (ptr : Z) : result string :=
  n ← cstring_len fuel m ptr 0;
  Ok (string_of_bytes (slice_bytes m (UnsafeBuffer ptr n))).

(** [os.FileInfo], reduced to the three methods the handlers call. *)
Record FileInfo : Type := mkFileInfo {
  fi_Mode : Z;
  fi_ModTime_Unix : Z;
  fi_Size : Z
}.

Definition fill_stat (info : FileInfo) : Stat_t :=
  {| Mode := to_uint32 (fi_Mode info);
     Mtim_Sec := to_int32 (fi_ModTime_Unix info);
     Size := fi_Size info |}.

(** ** Streams, inodes, requests *)

Section Model.

Context {World : Type}.

(** A call into a collaborator: it may change memory and the
    collaborators' own state. *)
Definition ext (A : Type) : Type := Memory -> World -> Memory * World * A.

Definition read_fn : Type := slice -> ext (Z * option error).
Definition write_fn : Type := slice -> ext (Z * option error).
Definition close_fn : Type := ext (option error).
Definition ioctl_fn : Type := Z -> Z -> ext (option error).
Definition stat_fn : Type := ext (FileInfo + error).

(** The dynamic values behind the interfaces.  An [io.Reader] has
    [Read]; whether its dynamic type also has [Ioctl] (the interface
    [Ioctler]) is the option [rd_Ioctl].  Likewise for the others. *)
Record Reader : Type := mkReader {
  Read : read_fn;
  rd_Ioctl : option ioctl_fn
}.

Record Writer : Type := mkWriter {
  Write : write_fn;
  wr_Ioctl : option ioctl_fn
}.

Record Closer : Type := mkCloser {
  Close : close_fn
}.

(** An [io.ReadWriteCloser] whose dynamic type is not [*fileHelper].
    [f_Stat] is present exactly when the dynamic type is an
    [afero.File], [f_Ioctl] exactly when it is an [Ioctler]. *)
Record Foreign : Type := mkForeign {
  f_Read : read_fn;
  f_Write : write_fn;
  f_Close : close_fn;
  f_Stat : option stat_fn;
  f_Ioctl : option ioctl_fn
}.

Record fileHelper : Type := mkFileHelper {
  r : option Reader;
  w : option Writer;
  c : option Closer
}.

(** The non-nil values of [Inode.File]. *)
Inductive Stream : Type :=
  | Helper (h : fileHelper)
  | Other (f : Foreign).

Record Inode : Type := mkInode {
  File : option Stream;
  Fd : Z;
  inuse : bool
}.

Definition set_File (f : option Stream) (ni : Inode) : Inode :=
  {| File := f; Fd := Fd ni; inuse := inuse ni |}.
Definition set_Fd (fd : Z) (ni : Inode) : Inode :=
  {| File := File ni; Fd := fd; inuse := inuse ni |}.
Definition set_inuse (b : bool) (ni : Inode) : Inode :=
  {| File := File ni; Fd := Fd ni; inuse := b |}.

(** The process-wide state the handlers work on. *)
Record State : Type := mkState {
  inodes : list Inode;
  mem : Memory;
  world : World
}.

Definition with_inodes (l : list Inode) (st : State) : State :=
  {| inodes := l; mem := mem st; world := world st |}.
Definition with_ext (mw : Memory * World) (st : State) : State :=
  {| inodes := inodes st; mem := fst mw; world := snd mw |}.
Definition with_mem (m : Memory) (st : State) : State :=
  {| inodes := inodes st; mem := m; world := world st |}.

(** An [isyscall.Request].  [Args] is the fixed-size array of argument
    words; the handlers index it with constants only.  [events] records,
    oldest first, what a handler did to the request. *)
Inductive Action : Type :=
  | GetArg (i : nat)
  | SetRet (v : Z)
  | Done.

Record Request : Type := mkRequest {
  Args : list Z;
  Ret : Z;
  events : list Action
}.

(** [c.Args[i]] *)
Definition get_Arg (i : nat) (rq : Request) : Z * Request :=
  (nth i (Args rq) 0,
   {| Args := Args rq; Ret := Ret rq; events := events rq ++ [GetArg i] |}).

(** [c.Ret = v] *)
Definition set_Ret (v : Z) (rq : Request) : Request :=
  {| Args := Args rq; Ret := v; events := events rq ++ [SetRet v] |}.

(** Modelled from the spec: [Request.Done] of package [isyscall] is the
    single-fire completion signal of a request; it is recorded as the
    event [Done]. *)
Definition call_Done (rq : Request) : Request :=
  {| Args := Args rq; Ret := Ret rq; events := events rq ++ [Done] |}.

(** ** Collaborators *)

Class Platform : Type := mkPlatform {
  (** [isyscall.Error]: the result word that encodes an error. *)
  isyscall_Error : error -> Z;
  (** [isyscall.Errno]: the result word that encodes an errno. *)
  isyscall_Errno : Z -> Z;
  (** [Root.OpenFile(path, flags, perm)] *)
  Root_OpenFile : string -> Z -> Z -> ext (Foreign + error);
  (** [Root.Stat(name)] *)
  Root_Stat : string -> ext (FileInfo + error);
  (** one byte of the process-wide generator behind [rand.Read] *)
  rand_byte : World -> Z * World;
  (** [console.Console()], seen as a reader and as a writer *)
  console_Reader : Reader;
  console_Writer : Writer;
  (** [etcInit] *)
  etcInit : ext unit
}.

Context `{Platform}.

(** ** The descriptor table *)

(** [new(Inode)] *)
Definition new_Inode : Inode := {| File := None; Fd := 0; inuse := false |}.

(** [Inode.Release] *)
Definition Release (ni : Inode) : Inode :=
  set_Fd (-1) (set_File None (set_inuse false ni)).

(** The [for i := range inodes] loop of [AllocInode]: the index of the
    first entry that is not in use, if the loop breaks. *)
Fixpoint scan_free (l : list Inode) (i : nat) : option nat :=
  match l with
  | [] => None
  | entry :: l' => if negb (inuse entry) then Some i else scan_free l' (S i)
  end.

(** [AllocInode].  After the [if fd == 0] block, [ni] points at slot
    [fd] of the table in both branches: it is [inodes[fd]] when the scan
    found [fd <> 0], and the entry just appended at index
    [len(inodes)] otherwise.  The returned pointer is the returned
    index. *)
Definition AllocInode (tbl : list Inode) : Z * list Inode :=
  let fd := match scan_free tbl 0 with
            | Some i => Z.of_nat i
            | None => 0
            end in
  let '(fd, tbl) :=
    if fd =? 0
    then (Z.of_nat (length tbl), tbl ++ [new_Inode])
    else (fd, tbl) in
  (fd, alter (fun ni => set_Fd fd (set_inuse true ni)) (Z.to_nat fd) tbl).

(** [AllocFileNode] *)
Definition AllocFileNode (s : Stream) (tbl : list Inode) : Z * list Inode :=
  let '(fd, tbl) := AllocInode tbl in
  (fd, alter (set_File (Some s)) (Z.to_nat fd) tbl).

(** [GetInode]: the pointer found, or the error.  A negative [fd] passes
    the only range check and indexes the slice. *)
Definition GetInode (fd : Z) (tbl : list Inode) : result (nat + error) :=
  if fd >=? Z.of_nat (length tbl) then Ok (inr (Errno EBADF))
  else if fd <? 0 then Panic "index out of range"
  else match tbl !! Z.to_nat fd with
       | Some ni => if negb (inuse ni) then Ok (inr (Errno EBADF))
                    else Ok (inl (Z.to_nat fd))
       | None => Panic "index out of range"
       end.

(** ** The stream wrapper [fileHelper] *)

Definition NewFile (rd : option Reader) (wr : option Writer)
    (cl : option Closer) : Stream :=
  Helper {| r := rd; w := wr; c := cl |}.

Definition fileHelper_Read (h : fileHelper) : read_fn :=
  fun p m wd =>
    match r h with
    | Some rd => Read rd p m wd
    | None => (m, wd, (0, Some (Errno EINVAL)))
    end.

Definition fileHelper_Write (h : fileHelper) : write_fn :=
  fun p m wd =>
    match w h with
    | Some wr => Write wr p m wd
    | None => (m, wd, (0, Some (Errno EROFS)))
    end.

(** [fileHelper.Ioctl]: [x] is the read half when it is wired, the
    write half otherwise; [fileHelper_x] is the outcome of the assertion
    [x.(Ioctler)], which fails on a nil [x] and on a half without [Ioctl]. *)
Definition fileHelper_x (h : fileHelper) : option ioctl_fn :=
  match r h with
  | Some rd => rd_Ioctl rd
  | None => match w h with
            | Some wr => wr_Ioctl wr
            | None => None
            end
  end.

Definition fileHelper_Ioctl (h : fileHelper) : ioctl_fn :=
  fun op arg m wd =>
    match fileHelper_x h with
    | Some ctl => ctl op arg m wd
    | None => (m, wd, Some (Errno EBADF))
    end.

Definition fileHelper_Close (h : fileHelper) : close_fn :=
  fun m wd =>
    match c h with
    | Some cl => Close cl m wd
    | None => (m, wd, Some (Errno EINVAL))
    end.

(** Method dispatch on the dynamic type of a stream. *)
Definition Stream_Read (s : Stream) : read_fn :=
  match s with Helper h => fileHelper_Read h | Other f => f_Read f end.
Definition Stream_Write (s : Stream) : write_fn :=
  match s with Helper h => fileHelper_Write h | Other f => f_Write f end.
Definition Stream_Close (s : Stream) : close_fn :=
  match s with Helper h => fileHelper_Close h | Other f => f_Close f end.

(** [s.(Ioctler)]: [*fileHelper] has the method [Ioctl], so the
    assertion always succeeds on a wrapper. *)
Definition as_Ioctler (s : Stream) : option ioctl_fn :=
  match s with Helper h => Some (fileHelper_Ioctl h) | Other f => f_Ioctl f end.

(** [s.(afero.File)]: [*fileHelper] has no [Stat]. *)
Definition as_aferoFile (s : Stream) : option stat_fn :=
  match s with Helper _ => None | Other f => f_Stat f end.

(** ** Calls through a descriptor *)

(** Run a collaborator against the memory and world of the state. *)
Definition call {A : Type} (f : ext A) (st : State) : State * A :=
  let '(m, wd, a) := f (mem st) (world st) in
  ({| inodes := inodes st; mem := m; world := wd |}, a).

(** [*ni] for a pointer handed out by [GetInode]. *)
Definition deref (ni : nat) (st : State) : result Inode :=
  match inodes st !! ni with
  | Some i => Ok i
  | None => Panic "nil pointer dereference"
  end.

(** A method call [ni.File.m(...)]: it panics when [ni.File] is nil. *)
Definition File_call {A : Type} (ni : nat) (m : Stream -> ext A)
    (st : State) : result (State * A) :=
  i ← deref ni st;
  match File i with
  | Some s => Ok (call (m s) st)
  | None => Panic "nil pointer dereference"
  end.

(** ** The handlers behind [fscall] *)

Definition sysOpen (fuel : nat) (dirfd name flags perm : Z) (st : State)
    : result (State * (Z * option error)) :=
  path ← cstring fuel (mem st) name;
  let '(fd, tbl) := AllocInode (inodes st) in
  let st := with_inodes tbl st in
  let '(st, res) := call (Root_OpenFile path (int_of_uintptr flags) perm) st in
  match res with
  | inr err =>
      if os_IsNotExist err then Ok (st, (0, Some (Errno ENOENT)))
      else Ok (st, (0, Some err))
  | inl f =>
      Ok (with_inodes (alter (set_File (Some (Other f))) (Z.to_nat fd)
                             (inodes st)) st,
          (fd, None))
  end.

Definition sysClose (ni : nat) (st : State)
    : result (State * option error) :=
  '(st, err) ← File_call ni Stream_Close st;
  Ok (with_inodes (alter Release ni (inodes st)) st, err).

Definition sysRead (ni : nat) (p n : Z) (st : State)
    : result (State * (Z * option error)) :=
  let buf := UnsafeBuffer p (int_of_uintptr n) in
  '(st, (ret, err)) ← File_call ni (fun s => Stream_Read s buf) st;
  if negb (ret =? 0) then Ok (st, (ret, None))
  else match err with
       | Some e => if is_EOF e then Ok (st, (0, None))
                   else Ok (st, (0, Some e))
       | None => Ok (st, (ret, err))
       end.

Definition sysWrite (ni : nat) (p n : Z) (st : State)
    : result (State * (Z * option error)) :=
  let buf := UnsafeBuffer p (int_of_uintptr n) in
  '(st, (_n, err)) ← File_call ni (fun s => Stream_Write s buf) st;
  if negb (_n =? 0) then Ok (st, (_n, None))
  else Ok (st, (0, err)).

(** A type assertion on a nil interface value yields [ok = false]. *)
Definition sysStat (ni : nat) (statptr : Z) (st : State)
    : result (State * option error) :=
  i ← deref ni st;
  match File i ≫= as_aferoFile with
  | None => Ok (st, Some (Errno EINVAL))
  | Some file_Stat =>
      let '(st, res) := call file_Stat st in
      match res with
      | inr err => Ok (st, Some err)
      | inl info =>
          Ok (with_mem (store_stat (mem st) statptr (fill_stat info)) st, None)
      end
  end.

Definition sysIoctl (ni : nat) (op arg : Z) (st : State)
    : result (State * option error) :=
  i ← deref ni st;
  match File i ≫= as_Ioctler with
  | None => Ok (st, Some (Errno EINVAL))
  | Some ctl => Ok (call (ctl op arg) st)
  end.

(** ** The dispatcher *)

Definition Handler : Type := Request -> State -> result (State * Request).

(** The centrally applied [if err != nil { c.Ret = isyscall.Error(err) }]. *)
Definition report (err : option error) (rq : Request) : Request :=
  match err with
  | Some e => set_Ret (isyscall_Error e) rq
  | None => rq
  end.

(** The [switch fn] of [fscall], after the descriptor was resolved. *)
Definition fscall_switch (fn : Z) (ni : nat) (rq : Request) (st : State)
    : result (State * Request * option error) :=
  if fn =? SYS_READ then
    let '(a1, rq) := get_Arg 1 rq in
    let '(a2, rq) := get_Arg 2 rq in
    '(st, (n, err)) ← sysRead ni a1 a2 st;
    Ok (st, set_Ret (uintptr_of_int n) rq, err)
  else if fn =? SYS_WRITE then
    let '(a1, rq) := get_Arg 1 rq in
    let '(a2, rq) := get_Arg 2 rq in
    '(st, (n, err)) ← sysWrite ni a1 a2 st;
    Ok (st, set_Ret (uintptr_of_int n) rq, err)
  else if fn =? SYS_CLOSE then
    '(st, err) ← sysClose ni st;
    Ok (st, rq, err)
  else if fn =? SYS_FSTAT64 then
    let '(a1, rq) := get_Arg 1 rq in
    '(st, err) ← sysStat ni a1 st;
    Ok (st, rq, err)
  else if fn =? SYS_IOCTL then
    let '(a1, rq) := get_Arg 1 rq in
    let '(a2, rq) := get_Arg 2 rq in
    '(st, err) ← sysIoctl ni a1 a2 st;
    Ok (st, rq, err)
  else Ok (st, rq, None).

Definition fscall (fuel : nat) (fn : Z) : Handler :=
  fun rq st =>
    if fn =? SYS_OPENAT then
      let '(a0, rq) := get_Arg 0 rq in
      let '(a1, rq) := get_Arg 1 rq in
      let '(a2, rq) := get_Arg 2 rq in
      let '(a3, rq) := get_Arg 3 rq in
      '(st, (fd, err)) ← sysOpen fuel a0 a1 a2 a3 st;
      match err with
      | Some e => Ok (st, call_Done (set_Ret (isyscall_Error e) rq))
      | None => Ok (st, call_Done (set_Ret (uintptr_of_int fd) rq))
      end
    else
      let '(a0, rq) := get_Arg 0 rq in
      found ← GetInode (int_of_uintptr a0) (inodes st);
      match found with
      | inr e => Ok (st, call_Done (set_Ret (isyscall_Error e) rq))
      | inl ni =>
          '(st, rq, err) ← fscall_switch fn ni rq st;
          Ok (st, call_Done (report err rq))
      end.

(** ** The handlers registered directly *)

Definition sysFcntl : Handler :=
  fun rq st => Ok (st, call_Done (set_Ret 0 rq)).

(** Offsets of the [[65]int8] fields of [syscall.Utsname]. *)
Definition Utsname_Sysname : Z := 0.
Definition Utsname_Nodename : Z := 65.
Definition Utsname_Release : Z := 130.
Definition Utsname_Version : Z := 195.
Definition Utsname_Machine : Z := 260.
Definition Utsname_Domainname : Z := 325.

(** [copy(unsafebuf(&field), s)] *)
Definition copy_field (base off : Z) (s : string) (m : Memory) : Memory :=
  store_bytes m (base + off) (take 65 (bytes_of_string s)).

Definition sysUname : Handler :=
  fun rq st =>
    let '(buf, rq) := get_Arg 0 rq in
    let m := mem st in
    let m := copy_field buf Utsname_Machine "x86_32" m in
    let m := copy_field buf Utsname_Domainname "icexin.com" m in
    let m := copy_field buf Utsname_Nodename "icexin.local" m in
    let m := copy_field buf Utsname_Release "0" m in
    let m := copy_field buf Utsname_Sysname "eggos" m in
    let m := copy_field buf Utsname_Version "0" m in
    Ok (with_mem m st, call_Done (set_Ret 0 rq)).

Definition sysFstatat64 (fuel : nat) : Handler :=
  fun rq st =>
    let '(a1, rq) := get_Arg 1 rq in
    name ← cstring fuel (mem st) a1;
    let '(statptr, rq) := get_Arg 2 rq in
    let '(st, res) := call (Root_Stat name) st in
    match res with
    | inr err =>
        let rq := if os_IsNotExist err
                  then set_Ret (isyscall_Errno ENOENT) rq
                  else set_Ret (isyscall_Error err) rq in
        Ok (st, call_Done rq)
    | inl info =>
        let st := with_mem (store_stat (mem st) statptr (fill_stat info)) st in
        Ok (st, call_Done (set_Ret 0 rq))
    end.

(** [rand.Read(buf)]: every byte of the view is drawn from the
    generator, in order.  A view whose length is negative (a requested
    length of [2^31] or more, read as an [int]) has no byte to fill. *)
Fixpoint rand_fill (n : nat) (p : Z) (m : Memory) (wd : World)
    : Memory * World :=
  match n with
  | O => (m, wd)
  | S n' =>
      let '(b, wd) := rand_byte wd in
      rand_fill n' (p + 1) (store_byte m p b) wd
  end.

Definition rand_Read (buf : slice) : ext unit :=
  fun m wd =>
    let '(m, wd) := rand_fill (Z.to_nat (Len buf)) (Data buf) m wd in
    (m, wd, tt).

Definition sysRandom : Handler :=
  fun rq st =>
    let '(p, rq) := get_Arg 0 rq in
    let '(n, rq) := get_Arg 1 rq in
    let buf := UnsafeBuffer p (int_of_uintptr n) in
    let '(st, _) := call (rand_Read buf) st in
    Ok (st, call_Done (set_Ret n rq)).

(** ** Bootstrap *)

Definition vfsInit (st : State) : State :=
  let bind s st := with_inodes (snd (AllocFileNode s (inodes st))) st in
  (* stdin *)
  let st := bind (NewFile (Some console_Reader) None None) st in
  (* stdout *)
  let st := bind (NewFile None (Some console_Writer) None) st in
  (* stderr *)
  let st := bind (NewFile None (Some console_Writer) None) st in
  (* epoll fd *)
  let st := bind (NewFile None None None) st in
  fst (call etcInit st).

(** [sysInit]: the registrations, in source order. *)
Definition sysInit (fuel : nat) : list (Z * Handler) :=
  [ (SYS_OPENAT, fscall fuel SYS_OPENAT);
    (SYS_WRITE, fscall fuel SYS_WRITE);
    (SYS_READ, fscall fuel SYS_READ);
    (SYS_CLOSE, fscall fuel SYS_CLOSE);
    (SYS_FSTAT64, fscall fuel SYS_FSTAT64);
    (SYS_IOCTL, fscall fuel SYS_IOCTL);
    (SYS_FCNTL, sysFcntl);
    (SYS_FCNTL64, sysFcntl);
    (SYS_FSTATAT64, sysFstatat64 fuel);
    (SYS_UNAME, sysUname);
    (SYS_RANDOM, sysRandom) ].

(** [Init] *)
Definition Init (fuel : nat) (st : State) : State * list (Z * Handler) :=
  (vfsInit st, sysInit fuel).

(** The handler a trapped opcode is routed to. *)
Definition registered (fuel : nat) (opcode : Z) : option Handler :=
  snd <$> find (fun e => fst e =? opcode) (sysInit fuel).

End Model.

(** ** What a stream can do

    The capability of a stream as its user sees it: a wrapper built by
    [NewFile] can serve an ioctl only through the half it selects. *)

Definition ioctl_capability {World : Type} (s : Stream (World:=World))
    : option ioctl_fn :=
  match s with
  | Helper h => fileHelper_x h
  | Other f => f_Ioctl f
  end.

(** Repeated allocation: [AllocFileNode] for every stream of a list, in
    order. *)
Fixpoint alloc_files {World : Type} (ss : list (Stream (World:=World)))
    (tbl : list Inode) : list Inode :=
  match ss with
  | [] => tbl
  | s :: ss' => alloc_files ss' (snd (AllocFileNode s tbl))
  end.

(** Every entry is in use. *)
Definition all_inuse {World : Type} (tbl : list (Inode (World:=World)))
    : Prop :=
  Forall (fun ni => inuse ni = true) tbl.

(** Number of entries in use. *)
Definition inuse_count {World : Type} (tbl : list (Inode (World:=World)))
    : nat :=
  length (filter (fun ni => inuse ni = true) tbl).

(** The first [n] bytes of the generator, and the generator after them. *)
Fixpoint rand_take {World : Type} `{!Platform (World:=World)} (n : nat)
    (wd : World) : list Z * World :=
  match n with
  | O => ([], wd)
  | S n' =>
      let '(b, wd) := rand_byte wd in
      let '(bs, wd) := rand_take n' wd in
      (b :: bs, wd)
  end.

(** Descriptor [fd] is open on stream [s]. *)
Definition open_on {World : Type} (st : State (World:=World)) (fd : Z)
    (s : Stream) : Prop :=
  0 <= fd < 2 ^ 31 /\
  exists ni, inodes st !! Z.to_nat fd = Some ni /\ inuse ni = true /\
             File ni = Some s.

(** What a released entry looks like. *)
Definition released_Inode {World : Type} : Inode (World:=World) :=
  {| File := None; Fd := -1; inuse := false |}.

(** The completion signal fired once on the way from [rq] to [rq'], as
    the last thing done to the request. *)
Definition completes_once (rq rq' : Request) : Prop :=
  exists pre, events rq' = events rq ++ pre ++ [Done] /\ Done ∉ pre.

(** When a handler runs to its end.  [fscall] faults on a negative
    descriptor and on a method call through an entry without a stream;
    the two handlers that parse a path need its terminator within the
    fuel. *)
Definition stream_needed (fn : Z) : bool :=
  (fn =? SYS_READ) || (fn =? SYS_WRITE) || (fn =? SYS_CLOSE).

Definition fault_free {World : Type} (fuel : nat) (opcode : Z)
    (rq : Request) (st : State (World:=World)) : Prop :=
  if (opcode =? SYS_OPENAT) || (opcode =? SYS_FSTATAT64) then
    exists path, cstring fuel (mem st) (nth 1 (Args rq) 0) = Ok path
  else if (opcode =? SYS_READ) || (opcode =? SYS_WRITE)
          || (opcode =? SYS_CLOSE) || (opcode =? SYS_FSTAT64)
          || (opcode =? SYS_IOCTL) then
    let fd := int_of_uintptr (nth 0 (Args rq) 0) in
    0 <= fd /\
    forall ni, inodes st !! Z.to_nat fd = Some ni -> inuse ni = true ->
               stream_needed opcode = true -> File ni <> None
  else True.

(** ** A sample platform

    A console at end of input, a root file system with one file, and a
    linear congruential generator; [World] is the generator's seed. *)

Definition sample_Errno (code : Z) : Z := (- code) mod word_modulus.

Definition sample_Error (e : error) : Z :=
  match e with
  | Errno code => sample_Errno code
  | _ => sample_Errno EINVAL
  end.

Definition sample_console_Ioctl : ioctl_fn (World:=Z) :=
  fun op arg m wd => (m, wd, None).

Definition sample_console_Reader : Reader (World:=Z) :=
  {| Read := fun buf m wd => (m, wd, (0, Some EOF));
     rd_Ioctl := Some sample_console_Ioctl |}.

Definition sample_console_Writer : Writer (World:=Z) :=
  {| Write := fun buf m wd => (m, wd, (Len buf, None));
     wr_Ioctl := Some sample_console_Ioctl |}.

(** A file whose transfers are short and report an error with the bytes
    they moved, and whose close fails. *)
Definition sample_file : Foreign (World:=Z) :=
  {| f_Read := fun buf m wd =>
       (store_bytes m (Data buf) [104; 105], wd,
        (2, Some (OtherError "short read")));
     f_Write := fun buf m wd => (m, wd, (1, Some (OtherError "disk full")));
     f_Close := fun m wd => (m, wd, Some (OtherError "close failed"));
     f_Stat := Some (fun m wd =>
       (m, wd, inl {| fi_Mode := 420; fi_ModTime_Unix := 0; fi_Size := 2 |}));
     f_Ioctl := None |}.

Definition sample_OpenFile (path : string) (flags perm : Z)
    : ext (World:=Z) (Foreign + error) :=
  fun m wd =>
    if String.eqb path "/etc/hosts" then (m, wd, inl sample_file)
    else (m, wd, inr (PathError "open" path ErrNotExist)).

Definition sample_Stat (path : string) : ext (World:=Z) (FileInfo + error) :=
  fun m wd =>
    if String.eqb path "/etc/hosts"
    then (m, wd, inl {| fi_Mode := 420; fi_ModTime_Unix := 0; fi_Size := 2 |})
    else (m, wd, inr (PathError "stat" path ErrNotExist)).

#[global] Instance sample_platform : Platform (World:=Z) :=
  {| isyscall_Error := sample_Error;
     isyscall_Errno := sample_Errno;
     Root_OpenFile := sample_OpenFile;
     Root_Stat := sample_Stat;
     rand_byte := fun seed =>
       (seed mod 256, (seed * 1103515245 + 12345) mod 2 ^ 31);
     console_Reader := sample_console_Reader;
     console_Writer := sample_console_Writer;
     etcInit := fun m wd => (m, wd, tt) |}.

(** Memory that is zero but for two paths. *)
Definition sample_mem : Memory :=
  store_bytes
    (store_bytes {| bytes := fun _ => 0;
                    stat_at := fun _ => {| Mode := 0; Mtim_Sec := 0; Size := 0 |} |}
       100 (bytes_of_string "/missing"))
    200 (bytes_of_string "/etc/hosts").

(** The machine right after [vfsInit]. *)
Definition sample_boot : State (World:=Z) :=
  vfsInit {| inodes := []; mem := sample_mem; world := 7 |}.

Definition sample_request (args : list Z) : Request :=
  {| Args := args; Ret := 0; events := [] |}.

(** The streams [vfsInit] binds to descriptors 0 to 3. *)
Definition sample_stdin : Stream (World:=Z) :=
  NewFile (Some sample_console_Reader) None None.
Definition sample_stdout : Stream (World:=Z) :=
  NewFile None (Some sample_console_Writer) None.
Definition sample_epoll : Stream (World:=Z) := NewFile None None None.

(** The machine after boot and a successful open of the one file: the
    file is descriptor 4. *)
Definition sample_opened : State (World:=Z) :=
  with_inodes (snd (AllocFileNode (Other sample_file) (inodes sample_boot)))
              sample_boot.

(** ** Further notions about the table *)

(** [n] allocations in a row. *)
Fixpoint alloc_n {World : Type} (n : nat) (tbl : list (Inode (World:=World)))
    : list Inode :=
  match n with
  | O => tbl
  | S n' => alloc_n n' (snd (AllocInode tbl))
  end.

(** The shape the table keeps: an entry in use carries its own index as
    its handle; an entry not in use is a released one, with the handle
    [-1] and no stream. *)
Definition table_ok {World : Type} (tbl : list (Inode (World:=World)))
    : Prop :=
  forall i ni, tbl !! i = Some ni ->
    if inuse ni then Fd ni = Z.of_nat i
    else Fd ni = -1 /\ File ni = None.

(** * Properties *)

(** ** The descriptor table *)

Section TableFacts.

Context {World : Type}.

Implicit Types (tbl : list (Inode (World:=World))) (ni : Inode (World:=World)).

Lemma scan_free_none tbl i : all_inuse tbl -> scan_free tbl i = None.
Proof.
  intros Hall. revert i.
  induction Hall as [|ni tbl Hni _ IH]; intros i; simpl; [reflexivity|].
  rewrite Hni. simpl. apply IH.
Qed.

Lemma scan_free_first tbl i k ni :
  tbl !! k = Some ni -> inuse ni = false ->
  all_inuse (take k tbl) ->
  scan_free tbl i = Some (i + k)%nat.
Proof.
  revert i k. induction tbl as [|e tbl IH]; intros i k Hk Hfree Hpre.
  - discriminate.
  - destruct k as [|k]; simpl in *.
    + injection Hk as ->. rewrite Hfree. simpl. f_equal. lia.
    + inversion Hpre as [|? ? He Hrest]; subst.
      rewrite He. simpl. rewrite (IH (S i) k Hk Hfree Hrest). f_equal. lia.
Qed.

(** With every entry in use, allocation appends an entry whose handle is
    the prior length. *)
Lemma AllocInode_full tbl :
  all_inuse tbl ->
  AllocInode tbl =
    (Z.of_nat (length tbl),
     tbl ++ [ {| File := None; Fd := Z.of_nat (length tbl); inuse := true |} ]).
Proof.
  intros Hall. unfold AllocInode. rewrite (scan_free_none _ _ Hall).
  simpl. f_equal. rewrite Nat2Z.id.
  rewrite alter_app_r_alt by lia. rewrite Nat.sub_diag. reflexivity.
Qed.

(** With slot [0] free, the scan's result is taken for "nothing found":
    the entry is left alone and a new one is appended. *)
Lemma AllocInode_slot0 tbl ni :
  tbl !! 0%nat = Some ni -> inuse ni = false ->
  AllocInode tbl =
    (Z.of_nat (length tbl),
     tbl ++ [ {| File := None; Fd := Z.of_nat (length tbl); inuse := true |} ]).
Proof.
  intros H0 Hfree. unfold AllocInode.
  rewrite (scan_free_first tbl 0 0 ni H0 Hfree) by constructor.
  simpl. f_equal. rewrite Nat2Z.id.
  rewrite alter_app_r_alt by lia. rewrite Nat.sub_diag. reflexivity.
Qed.

(** The first free slot, when it is not slot [0], is reused in place. *)
Lemma AllocInode_reuse tbl k ni :
  (0 < k)%nat ->
  tbl !! k = Some ni -> inuse ni = false ->
  all_inuse (take k tbl) ->
  AllocInode tbl =
    (Z.of_nat k,
     <[k := {| File := File ni; Fd := Z.of_nat k; inuse := true |}]> tbl).
Proof.
  intros Hk Hlook Hfree Hpre. unfold AllocInode.
  rewrite (scan_free_first tbl 0 k ni Hlook Hfree Hpre). simpl.
  destruct (Z.eqb_spec (Z.of_nat k) 0) as [E|_]; [lia|].
  f_equal. rewrite Nat2Z.id.
  apply list_eq. intros j. destruct (decide (k = j)) as [<-|Hne].
  - rewrite list_lookup_alter_eq, Hlook.
    rewrite list_lookup_insert_eq by (apply lookup_lt_Some in Hlook; lia).
    reflexivity.
  - rewrite list_lookup_alter_ne, list_lookup_insert_ne by done. reflexivity.
Qed.

Lemma AllocFileNode_full s tbl :
  all_inuse tbl ->
  AllocFileNode s tbl =
    (Z.of_nat (length tbl),
     tbl ++ [ {| File := Some s; Fd := Z.of_nat (length tbl); inuse := true |} ]).
Proof.
  intros Hall. unfold AllocFileNode. rewrite (AllocInode_full _ Hall).
  f_equal. rewrite Nat2Z.id.
  rewrite alter_app_r_alt by lia. rewrite Nat.sub_diag. reflexivity.
Qed.

Lemma alloc_files_full ss tbl :
  all_inuse tbl ->
  all_inuse (alloc_files ss tbl) /\
  length (alloc_files ss tbl) = (length tbl + length ss)%nat.
Proof.
  revert tbl. induction ss as [|s ss IH]; intros tbl Hall; simpl.
  - split; [assumption | lia].
  - rewrite (AllocFileNode_full s tbl Hall). simpl.
    destruct (IH (tbl ++ [ {| File := Some s; Fd := Z.of_nat (length tbl);
                             inuse := true |} ])) as [H1 H2].
    + apply Forall_app. split; [assumption|]. repeat constructor.
    + split; [assumption|]. rewrite H2, length_app. simpl. lia.
Qed.

Lemma all_inuse_take_release tbl k :
  all_inuse tbl -> all_inuse (take k (alter Release k tbl)).
Proof.
  intros Hall. rewrite take_alter_ge by lia. apply Forall_take, Hall.
Qed.

(** Allocation always raises the number of entries in use by one. *)
Lemma inuse_count_app tbl1 tbl2 :
  inuse_count (tbl1 ++ tbl2) = (inuse_count tbl1 + inuse_count tbl2)%nat.
Proof. unfold inuse_count. rewrite filter_app, length_app. reflexivity. Qed.

Lemma scan_free_some tbl i j :
  scan_free tbl i = Some j ->
  exists k ni, j = (i + k)%nat /\ tbl !! k = Some ni /\ inuse ni = false /\
               all_inuse (take k tbl).
Proof.
  revert i. induction tbl as [|e tbl IH]; intros i Hscan; simpl in Hscan.
  - discriminate.
  - destruct (inuse e) eqn:He; simpl in Hscan.
    + destruct (IH _ Hscan) as (k & ni & -> & Hk & Hfree & Hpre).
      exists (S k), ni. repeat split; [lia | exact Hk | exact Hfree |].
      simpl. constructor; assumption.
    + injection Hscan as <-. exists 0%nat, e.
      repeat split; [lia | exact He | constructor].
Qed.

Lemma inuse_count_alter_free tbl k ni f :
  tbl !! k = Some ni -> inuse ni = false -> inuse (f ni) = true ->
  inuse_count (alter f k tbl) = S (inuse_count tbl).
Proof.
  intros Hk Hfree Hused.
  rewrite <- (take_drop_middle tbl k ni Hk) at 2.
  assert (Hlen : length (take k tbl) = k).
  { apply length_take_le. apply lookup_lt_Some in Hk. lia. }
  rewrite <- (take_drop_middle tbl k ni Hk) at 1.
  rewrite alter_app_r_alt by lia. rewrite Hlen, Nat.sub_diag. simpl.
  rewrite !inuse_count_app.
  change (f ni :: drop (S k) tbl) with ([f ni] ++ drop (S k) tbl).
  change (ni :: drop (S k) tbl) with ([ni] ++ drop (S k) tbl).
  rewrite !inuse_count_app.
  assert (H1 : inuse_count [f ni] = 1%nat).
  { unfold inuse_count. rewrite filter_cons_True by exact Hused. reflexivity. }
  assert (H0 : inuse_count [ni] = 0%nat).
  { unfold inuse_count. rewrite filter_cons_False by congruence. reflexivity. }
  lia.
Qed.

Lemma inuse_count_snoc tbl ni :
  inuse ni = true -> inuse_count (tbl ++ [ni]) = S (inuse_count tbl).
Proof.
  intros Hused. rewrite inuse_count_app.
  unfold inuse_count at 2. rewrite filter_cons_True by exact Hused.
  simpl. lia.
Qed.

(** Whatever the table, an allocation puts one more entry in use. *)
Lemma AllocInode_inuse_count tbl :
  inuse_count (snd (AllocInode tbl)) = S (inuse_count tbl).
Proof.
  destruct (scan_free tbl 0) as [j|] eqn:Hscan.
  - destruct (scan_free_some _ _ _ Hscan) as (k & ni & -> & Hk & Hfree & Hpre).
    simpl in Hscan. destruct k as [|k].
    + rewrite (AllocInode_slot0 tbl ni Hk Hfree). simpl.
      apply inuse_count_snoc. reflexivity.
    + rewrite (AllocInode_reuse tbl (S k) ni) by (lia || assumption). simpl.
      rewrite list_insert_alter.
      apply (inuse_count_alter_free tbl (S k) ni); [exact Hk | exact Hfree | reflexivity].
  - unfold AllocInode. rewrite Hscan. simpl. rewrite Nat2Z.id.
    rewrite alter_app_r_alt by lia. rewrite Nat.sub_diag. simpl.
    apply inuse_count_snoc. reflexivity.
Qed.

(** *** Lookup *)

Lemma GetInode_beyond tbl fd :
  Z.of_nat (length tbl) <= fd -> GetInode fd tbl = Ok (inr (Errno EBADF)).
Proof.
  intros Hfd. unfold GetInode.
  destruct (Z.geb_spec fd (Z.of_nat (length tbl))); [reflexivity | lia].
Qed.

Lemma GetInode_released tbl fd ni :
  0 <= fd -> tbl !! Z.to_nat fd = Some ni -> inuse ni = false ->
  GetInode fd tbl = Ok (inr (Errno EBADF)).
Proof.
  intros Hfd Hlook Hfree. unfold GetInode.
  destruct (Z.geb_spec fd (Z.of_nat (length tbl))); [reflexivity|].
  destruct (Z.ltb_spec fd 0); [lia|].
  rewrite Hlook, Hfree. reflexivity.
Qed.

Lemma GetInode_live tbl fd ni :
  0 <= fd -> tbl !! Z.to_nat fd = Some ni -> inuse ni = true ->
  GetInode fd tbl = Ok (inl (Z.to_nat fd)).
Proof.
  intros Hfd Hlook Hused. unfold GetInode.
  pose proof (lookup_lt_Some _ _ _ Hlook) as Hlt.
  destruct (Z.geb_spec fd (Z.of_nat (length tbl))); [lia|].
  destruct (Z.ltb_spec fd 0); [lia|].
  rewrite Hlook, Hused. reflexivity.
Qed.

(** A negative handle is below every table length, so the range check
    lets it through and the slice is indexed with it. *)
Lemma GetInode_negative tbl fd :
  fd < 0 -> GetInode fd tbl = Panic "index out of range".
Proof.
  intros Hfd. unfold GetInode.
  destruct (Z.geb_spec fd (Z.of_nat (length tbl))); [lia|].
  destruct (Z.ltb_spec fd 0); [reflexivity | lia].
Qed.

Lemma GetInode_found tbl fd p :
  GetInode fd tbl = Ok (inl p) ->
  0 <= fd /\ p = Z.to_nat fd /\
  exists ni, tbl !! p = Some ni /\ inuse ni = true.
Proof.
  unfold GetInode.
  destruct (Z.geb_spec fd (Z.of_nat (length tbl))); [discriminate|].
  destruct (Z.ltb_spec fd 0); [discriminate|].
  destruct (tbl !! Z.to_nat fd) as [ni|] eqn:Hlook; [|discriminate].
  destruct (inuse ni) eqn:Hused; simpl; [|discriminate].
  intros [= <-]. split; [lia|]. split; [reflexivity|]. eauto.
Qed.

(** C2. After allocating one descriptor per stream of [ss] from an
    empty table and releasing the one at index [k], the next allocation
    returns handle [k] and reuses that slot when [k > 0]; when [k = 0]
    slot [0] stays released and the allocation appends a fresh entry
    whose handle is the prior table length. *)
Theorem alloc_release_alloc (ss : list (Stream (World:=World))) (k : nat) :
  (k < length ss)%nat ->
  let tbl := alter Release k (alloc_files ss []) in
  length tbl = length ss /\
  ((0 < k)%nat ->
     AllocInode tbl =
       (Z.of_nat k,
        <[k := {| File := None; Fd := Z.of_nat k; inuse := true |}]> tbl)) /\
  (k = 0%nat ->
     AllocInode tbl =
       (Z.of_nat (length tbl),
        tbl ++ [ {| File := None; Fd := Z.of_nat (length tbl);
                    inuse := true |} ]) /\
     inuse <$> snd (AllocInode tbl) !! 0%nat = Some false).
Proof.
  intros Hk tbl.
  destruct (alloc_files_full ss [] (Forall_nil_2 _)) as [Hall Hlen].
  simpl in Hlen.
  assert (Hlt : (k < length (alloc_files ss []))%nat) by lia.
  destruct (lookup_lt_is_Some_2 _ _ Hlt) as [ni Hni].
  assert (Hrel : tbl !! k = Some (Release ni)).
  { unfold tbl. rewrite list_lookup_alter_eq, Hni. reflexivity. }
  split; [unfold tbl; rewrite length_alter; exact Hlen|].
  split.
  - intros Hpos.
    apply (AllocInode_reuse tbl k (Release ni) Hpos Hrel eq_refl).
    apply all_inuse_take_release, Hall.
  - intros ->.
    pose proof (AllocInode_slot0 tbl (Release ni) Hrel eq_refl) as Halloc.
    split; [exact Halloc|].
    rewrite Halloc. simpl.
    rewrite lookup_app_l by (unfold tbl; rewrite length_alter; lia).
    rewrite Hrel. reflexivity.
Qed.

End TableFacts.

(** ** The handlers *)

Section HandlerFacts.

Context {World : Type} {P : Platform (World:=World)}.

Implicit Types (st : State (World:=World)) (s : Stream (World:=World))
  (rq : Request).

Lemma int_of_uintptr_small w : 0 <= w < 2 ^ 31 -> int_of_uintptr w = w.
Proof.
  intros Hw. unfold int_of_uintptr, word_modulus.
  rewrite Z.mod_small by lia. lia.
Qed.

Lemma open_on_GetInode st fd s :
  open_on st fd s -> GetInode fd (inodes st) = Ok (inl (Z.to_nat fd)).
Proof.
  intros [Hfd (ni & Hlook & Hused & _)].
  apply (GetInode_live _ _ ni); [lia | assumption | assumption].
Qed.

Lemma File_call_open {A : Type} st fd s (m : Stream -> ext A) :
  open_on st fd s -> File_call (Z.to_nat fd) m st = Ok (call (m s) st).
Proof.
  intros [_ (ni & Hlook & _ & Hfile)].
  unfold File_call, deref. rewrite Hlook. simpl. rewrite Hfile. reflexivity.
Qed.

Lemma deref_open st fd s :
  open_on st fd s ->
  exists ni, deref (Z.to_nat fd) st = Ok ni /\ File ni = Some s.
Proof.
  intros [_ (ni & Hlook & _ & Hfile)]. exists ni.
  unfold deref. rewrite Hlook. auto.
Qed.

(** [fscall] on an opcode other than [openat], once the descriptor in
    [Args[0]] is resolved. *)
Lemma fscall_resolved fuel fn rq st fd s :
  fn <> SYS_OPENAT ->
  nth 0 (Args rq) 0 = fd -> open_on st fd s ->
  fscall fuel fn rq st =
    ('(st', rq', err) ← fscall_switch fn (Z.to_nat fd) (snd (get_Arg 0 rq)) st;
     Ok (st', call_Done (report err rq'))).
Proof.
  intros Hfn Harg Hopen. unfold fscall.
  destruct (Z.eqb_spec fn SYS_OPENAT); [contradiction|].
  simpl. rewrite Harg.
  rewrite int_of_uintptr_small by (destruct Hopen; assumption).
  rewrite (open_on_GetInode _ _ _ Hopen). reflexivity.
Qed.

(** C5. Closing an open descriptor releases its table entry (stream
    dropped, handle set to [-1], not in use) whatever the stream's close
    returns, and an error of the stream's close is the error of the call
    and the encoded result of the request. *)
Theorem close_releases_descriptor fuel rq st fd s m wd err :
  nth 0 (Args rq) 0 = fd -> open_on st fd s ->
  Stream_Close s (mem st) (world st) = (m, wd, err) ->
  exists st' rq',
    sysClose (Z.to_nat fd) st = Ok (st', err) /\
    fscall fuel SYS_CLOSE rq st = Ok (st', rq') /\
    inodes st' = alter Release (Z.to_nat fd) (inodes st) /\
    inodes st' !! Z.to_nat fd = Some released_Inode /\
    mem st' = m /\ world st' = wd /\
    Ret rq' = match err with
              | Some e => isyscall_Error e
              | None => Ret rq
              end.
Proof.
  intros Harg Hopen Hclose.
  assert (Hsys : sysClose (Z.to_nat fd) st =
                 Ok ({| inodes := alter Release (Z.to_nat fd) (inodes st);
                        mem := m; world := wd |}, err)).
  { unfold sysClose. rewrite (File_call_open _ _ _ _ Hopen).
    unfold call. rewrite Hclose. reflexivity. }
  eexists _, _. split; [exact Hsys|].
  split.
  { rewrite (fscall_resolved fuel SYS_CLOSE rq st fd s) by (done || discriminate).
    unfold fscall_switch. simpl. rewrite Hsys. reflexivity. }
  simpl. split; [reflexivity|]. split.
  { destruct Hopen as [_ (ni & Hlook & _ & _)].
    rewrite list_lookup_alter_eq, Hlook. reflexivity. }
  split; [reflexivity|]. split; [reflexivity|].
  destruct err; reflexivity.
Qed.

(** C6. A read through an open descriptor whose stream answers with no
    bytes and the end-of-stream condition is a successful read of [0]
    bytes: no error comes back from [sysRead], and the request's result
    is [0], set once, with no error encoded. *)
Theorem read_at_end_of_stream fuel rq st fd s m wd :
  nth 0 (Args rq) 0 = fd -> open_on st fd s ->
  Stream_Read s (UnsafeBuffer (nth 1 (Args rq) 0)
                              (int_of_uintptr (nth 2 (Args rq) 0)))
              (mem st) (world st) = (m, wd, (0, Some EOF)) ->
  let st' := with_ext (m, wd) st in
  sysRead (Z.to_nat fd) (nth 1 (Args rq) 0) (nth 2 (Args rq) 0) st
    = Ok (st', (0, None)) /\
  exists rq',
    fscall fuel SYS_READ rq st = Ok (st', rq') /\
    Ret rq' = 0 /\
    events rq' =
      events rq ++ [GetArg 0; GetArg 1; GetArg 2; SetRet 0; Done].
Proof.
  intros Harg Hopen Hread st'.
  assert (Hsys : sysRead (Z.to_nat fd) (nth 1 (Args rq) 0)
                   (nth 2 (Args rq) 0) st = Ok (st', (0, None))).
  { unfold sysRead. rewrite (File_call_open _ _ _ _ Hopen).
    unfold call. rewrite Hread. reflexivity. }
  split; [exact Hsys|].
  eexists. split.
  { rewrite (fscall_resolved fuel SYS_READ rq st fd s) by (done || discriminate).
    unfold fscall_switch. simpl. rewrite Hsys. reflexivity. }
  simpl. split; [reflexivity|].
  rewrite <- !app_assoc. reflexivity.
Qed.

(** C8. When the stream of an open descriptor moves a nonzero number of
    bytes and reports an error with them, the read handler and the write
    handler return that count with no error, and the request's result is
    the count: the stream's error is encoded nowhere. *)
Theorem transfer_error_discarded fuel rq st fd s m wd n e :
  nth 0 (Args rq) 0 = fd -> open_on st fd s -> n <> 0 ->
  let buf := UnsafeBuffer (nth 1 (Args rq) 0)
                          (int_of_uintptr (nth 2 (Args rq) 0)) in
  let st' := with_ext (m, wd) st in
  let done_with v :=
    events rq ++ [GetArg 0; GetArg 1; GetArg 2; SetRet v; Done] in
  (Stream_Read s buf (mem st) (world st) = (m, wd, (n, Some e)) ->
   sysRead (Z.to_nat fd) (nth 1 (Args rq) 0) (nth 2 (Args rq) 0) st
     = Ok (st', (n, None)) /\
   exists rq',
     fscall fuel SYS_READ rq st = Ok (st', rq') /\
     Ret rq' = uintptr_of_int n /\
     events rq' = done_with (uintptr_of_int n)) /\
  (Stream_Write s buf (mem st) (world st) = (m, wd, (n, Some e)) ->
   sysWrite (Z.to_nat fd) (nth 1 (Args rq) 0) (nth 2 (Args rq) 0) st
     = Ok (st', (n, None)) /\
   exists rq',
     fscall fuel SYS_WRITE rq st = Ok (st', rq') /\
     Ret rq' = uintptr_of_int n /\
     events rq' = done_with (uintptr_of_int n)).
Proof.
  intros Harg Hopen Hn buf st' done_with.
  assert (Hnz : negb (n =? 0) = true).
  { destruct (Z.eqb_spec n 0); [contradiction | reflexivity]. }
  split; intros Hio.
  - assert (Hsys : sysRead (Z.to_nat fd) (nth 1 (Args rq) 0)
                     (nth 2 (Args rq) 0) st = Ok (st', (n, None))).
    { unfold sysRead. rewrite (File_call_open _ _ _ _ Hopen).
      unfold call. fold buf. rewrite Hio. simpl. rewrite Hnz. reflexivity. }
    split; [exact Hsys|]. eexists. split.
    { rewrite (fscall_resolved fuel SYS_READ rq st fd s)
        by (done || discriminate).
      unfold fscall_switch. simpl. rewrite Hsys. reflexivity. }
    simpl. split; [reflexivity|].
    unfold done_with. rewrite <- !app_assoc. reflexivity.
  - assert (Hsys : sysWrite (Z.to_nat fd) (nth 1 (Args rq) 0)
                     (nth 2 (Args rq) 0) st = Ok (st', (n, None))).
    { unfold sysWrite. rewrite (File_call_open _ _ _ _ Hopen).
      unfold call. fold buf. rewrite Hio. simpl. rewrite Hnz. reflexivity. }
    split; [exact Hsys|]. eexists. split.
    { rewrite (fscall_resolved fuel SYS_WRITE rq st fd s)
        by (done || discriminate).
      unfold fscall_switch. simpl. rewrite Hsys. reflexivity. }
    simpl. split; [reflexivity|].
    unfold done_with. rewrite <- !app_assoc. reflexivity.
Qed.

(** C4 (as the code has it). For an open descriptor whose stream has no
    stat capability, [fstat] fails with [EINVAL] and changes nothing, the
    caller's stat structure included.  [ioctl] fails with [EINVAL] when
    the stream object itself is no [Ioctler]; a wrapper built by
    [NewFile] always is one, and when the half it selects has no ioctl
    the call fails with [EBADF] instead.  Nothing is changed in either
    case. *)
Theorem capability_failures fuel rq st fd s :
  nth 0 (Args rq) 0 = fd -> open_on st fd s ->
  (as_aferoFile s = None ->
     sysStat (Z.to_nat fd) (nth 1 (Args rq) 0) st
       = Ok (st, Some (Errno EINVAL)) /\
     exists rq', fscall fuel SYS_FSTAT64 rq st = Ok (st, rq') /\
                 Ret rq' = isyscall_Error (Errno EINVAL)) /\
  (as_Ioctler s = None ->
     sysIoctl (Z.to_nat fd) (nth 1 (Args rq) 0) (nth 2 (Args rq) 0) st
       = Ok (st, Some (Errno EINVAL)) /\
     exists rq', fscall fuel SYS_IOCTL rq st = Ok (st, rq') /\
                 Ret rq' = isyscall_Error (Errno EINVAL)) /\
  (forall h, s = Helper h -> fileHelper_x h = None ->
     sysIoctl (Z.to_nat fd) (nth 1 (Args rq) 0) (nth 2 (Args rq) 0) st
       = Ok (st, Some (Errno EBADF)) /\
     exists rq', fscall fuel SYS_IOCTL rq st = Ok (st, rq') /\
                 Ret rq' = isyscall_Error (Errno EBADF)).
Proof.
  intros Harg Hopen.
  destruct (deref_open _ _ _ Hopen) as (ni & Hderef & Hfile).
  split; [|split].
  - intros Hcap.
    assert (Hsys : sysStat (Z.to_nat fd) (nth 1 (Args rq) 0) st
                   = Ok (st, Some (Errno EINVAL))).
    { unfold sysStat. rewrite Hderef. simpl. rewrite Hfile. simpl.
      rewrite Hcap. reflexivity. }
    split; [exact Hsys|]. eexists. split.
    { rewrite (fscall_resolved fuel SYS_FSTAT64 rq st fd s)
        by (done || discriminate).
      unfold fscall_switch. simpl. rewrite Hsys. reflexivity. }
    reflexivity.
  - intros Hcap.
    assert (Hsys : sysIoctl (Z.to_nat fd) (nth 1 (Args rq) 0)
                     (nth 2 (Args rq) 0) st = Ok (st, Some (Errno EINVAL))).
    { unfold sysIoctl. rewrite Hderef. simpl. rewrite Hfile. simpl.
      rewrite Hcap. reflexivity. }
    split; [exact Hsys|]. eexists. split.
    { rewrite (fscall_resolved fuel SYS_IOCTL rq st fd s)
        by (done || discriminate).
      unfold fscall_switch. simpl. rewrite Hsys. reflexivity. }
    reflexivity.
  - intros h -> Hhalf.
    assert (Hsys : sysIoctl (Z.to_nat fd) (nth 1 (Args rq) 0)
                     (nth 2 (Args rq) 0) st = Ok (st, Some (Errno EBADF))).
    { unfold sysIoctl. rewrite Hderef. simpl. rewrite Hfile. simpl.
      unfold call, fileHelper_Ioctl. rewrite Hhalf. destruct st; reflexivity. }
    split; [exact Hsys|]. eexists. split.
    { rewrite (fscall_resolved fuel SYS_IOCTL rq st fd (Helper h))
        by (done || discriminate).
      unfold fscall_switch. simpl. rewrite Hsys. reflexivity. }
    reflexivity.
Qed.

(** C7. A stream built by [NewFile] without a read half answers every
    read with no bytes and [EINVAL], the error the wrapper keeps for a
    write-only stream; one built without a write half answers every
    write with no bytes and [EROFS], the read-only error.  Through an
    open descriptor the read and write handlers return these errors, and
    the request's result encodes them. *)
Theorem wrong_direction_errors fuel rq st fd
    (rd : option Reader) (wr : option Writer) (cl : option Closer) :
  nth 0 (Args rq) 0 = fd ->
  (forall buf m wd,
     Stream_Read (NewFile None wr cl) buf m wd
       = (m, wd, (0, Some (Errno EINVAL)))) /\
  (forall buf m wd,
     Stream_Write (NewFile rd None cl) buf m wd
       = (m, wd, (0, Some (Errno EROFS)))) /\
  (open_on st fd (NewFile None wr cl) ->
     sysRead (Z.to_nat fd) (nth 1 (Args rq) 0) (nth 2 (Args rq) 0) st
       = Ok (st, (0, Some (Errno EINVAL))) /\
     exists rq', fscall fuel SYS_READ rq st = Ok (st, rq') /\
                 Ret rq' = isyscall_Error (Errno EINVAL)) /\
  (open_on st fd (NewFile rd None cl) ->
     sysWrite (Z.to_nat fd) (nth 1 (Args rq) 0) (nth 2 (Args rq) 0) st
       = Ok (st, (0, Some (Errno EROFS))) /\
     exists rq', fscall fuel SYS_WRITE rq st = Ok (st, rq') /\
                 Ret rq' = isyscall_Error (Errno EROFS)).
Proof.
  intros Harg.
  split; [reflexivity|]. split; [reflexivity|]. split; intros Hopen.
  - assert (Hsys : sysRead (Z.to_nat fd) (nth 1 (Args rq) 0)
                     (nth 2 (Args rq) 0) st
                   = Ok (st, (0, Some (Errno EINVAL)))).
    { unfold sysRead. rewrite (File_call_open _ _ _ _ Hopen).
      destruct st; reflexivity. }
    split; [exact Hsys|]. eexists. split.
    { rewrite (fscall_resolved fuel SYS_READ rq st fd _ ltac:(discriminate)
                 Harg Hopen).
      unfold fscall_switch. simpl. rewrite Hsys. reflexivity. }
    reflexivity.
  - assert (Hsys : sysWrite (Z.to_nat fd) (nth 1 (Args rq) 0)
                     (nth 2 (Args rq) 0) st
                   = Ok (st, (0, Some (Errno EROFS)))).
    { unfold sysWrite. rewrite (File_call_open _ _ _ _ Hopen).
      destruct st; reflexivity. }
    split; [exact Hsys|]. eexists. split.
    { rewrite (fscall_resolved fuel SYS_WRITE rq st fd _ ltac:(discriminate)
                 Harg Hopen).
      unfold fscall_switch. simpl. rewrite Hsys. reflexivity. }
    reflexivity.
Qed.

(** *** Open *)

(** A failing [Root.OpenFile] leaves behind the entry that [sysOpen]
    allocated before calling it. *)
Lemma sysOpen_failure fuel dirfd name flags perm st path m wd err :
  cstring fuel (mem st) name = Ok path ->
  Root_OpenFile path (int_of_uintptr flags) perm (mem st) (world st)
    = (m, wd, inr err) ->
  sysOpen fuel dirfd name flags perm st =
    Ok ({| inodes := snd (AllocInode (inodes st)); mem := m; world := wd |},
        (0, Some (if os_IsNotExist err then Errno ENOENT else err))).
Proof.
  intros Hpath Hopen. unfold sysOpen. rewrite Hpath. simpl.
  destruct (AllocInode (inodes st)) as [fd tbl]. simpl.
  unfold call. simpl. rewrite Hopen.
  destruct (os_IsNotExist err); reflexivity.
Qed.

Lemma sysOpen_failure_inuse_count fuel dirfd name flags perm st path m wd err st' r :
  cstring fuel (mem st) name = Ok path ->
  Root_OpenFile path (int_of_uintptr flags) perm (mem st) (world st)
    = (m, wd, inr err) ->
  sysOpen fuel dirfd name flags perm st = Ok (st', r) ->
  inuse_count (inodes st') = S (inuse_count (inodes st)).
Proof.
  intros Hpath Hopen Hsys.
  rewrite (sysOpen_failure _ _ _ _ _ _ _ _ _ _ Hpath Hopen) in Hsys.
  injection Hsys as <- _. simpl. apply AllocInode_inuse_count.
Qed.

(** *** Random fill *)


Lemma rand_take_length n wd : length (fst (rand_take n wd)) = n.
Proof.
  revert wd. induction n as [|n IH]; intros wd; simpl; [reflexivity|].
  destruct (rand_byte wd) as [b wd1]. specialize (IH wd1).
  destruct (rand_take n wd1). simpl in *. lia.
Qed.


(** *** Completion *)

Ltac not_Done :=
  repeat (apply not_elem_of_cons; split; [discriminate|]);
  apply not_elem_of_nil.

Lemma completes_once_snoc rq rq' pre :
  events rq' = (events rq ++ pre) ++ [Done] -> Done ∉ pre ->
  completes_once rq rq'.
Proof.
  intros Hev Hnot. exists pre. rewrite Hev, <- app_assoc. auto.
Qed.

(** Close a goal [completes_once rq rq'] when [events rq'] computes to
    [events rq] followed by explicit actions and [Done]. *)
Ltac done_once :=
  eapply completes_once_snoc;
  [ simpl; f_equal; rewrite <- ?app_assoc; reflexivity
  | simpl; not_Done ].

Lemma registered_cases fuel opcode h :
  registered fuel opcode = Some h ->
  (opcode = SYS_OPENAT \/ opcode = SYS_WRITE \/ opcode = SYS_READ \/
   opcode = SYS_CLOSE \/ opcode = SYS_FSTAT64 \/ opcode = SYS_IOCTL) /\
  h = fscall fuel opcode
  \/ (opcode = SYS_FCNTL \/ opcode = SYS_FCNTL64) /\ h = sysFcntl
  \/ opcode = SYS_FSTATAT64 /\ h = sysFstatat64 fuel
  \/ opcode = SYS_UNAME /\ h = sysUname
  \/ opcode = SYS_RANDOM /\ h = sysRandom.
Proof.
  unfold registered, sysInit.
  cbn [find fst snd fmap option_fmap option_map].
  repeat match goal with
         | |- context [?c =? opcode] =>
             destruct (Z.eqb_spec c opcode) as [<-|?]
         end;
    cbn [fmap option_fmap option_map snd]; intros [= <-]; tauto.
Qed.

(** The switch of [fscall] reads arguments and sets the result; it never
    completes the request. *)
Lemma fscall_switch_events fn ni rq st st' rq' err :
  fscall_switch fn ni rq st = Ok (st', rq', err) ->
  exists pre, events rq' = events rq ++ pre /\ Done ∉ pre.
Proof.
  unfold fscall_switch.
  destruct (fn =? SYS_READ).
  { simpl. destruct (sysRead _ _ _ _) as [[st1 [n e]]| |]; simpl;
      intros [= <- <- <-]; simpl; rewrite <- ?app_assoc; simpl;
      eexists; split; [reflexivity | not_Done]. }
  destruct (fn =? SYS_WRITE).
  { simpl. destruct (sysWrite _ _ _ _) as [[st1 [n e]]| |]; simpl;
      intros [= <- <- <-]; simpl; rewrite <- ?app_assoc; simpl;
      eexists; split; [reflexivity | not_Done]. }
  destruct (fn =? SYS_CLOSE).
  { destruct (sysClose _ _) as [[st1 e]| |]; simpl;
      intros [= <- <- <-]. exists []. rewrite app_nil_r.
      split; [reflexivity | not_Done]. }
  destruct (fn =? SYS_FSTAT64).
  { simpl. destruct (sysStat _ _ _) as [[st1 e]| |]; simpl;
      intros [= <- <- <-]; simpl.
      eexists; split; [reflexivity | not_Done]. }
  destruct (fn =? SYS_IOCTL).
  { simpl. destruct (sysIoctl _ _ _ _) as [[st1 e]| |]; simpl;
      intros [= <- <- <-]; simpl; rewrite <- ?app_assoc; simpl;
      eexists; split; [reflexivity | not_Done]. }
  intros [= <- <- <-]. exists []. rewrite app_nil_r.
  split; [reflexivity | not_Done].
Qed.

(** Every run of [fscall] that returns has fired the completion signal
    once, last. *)
Lemma fscall_completes fuel fn rq st st' rq' :
  fscall fuel fn rq st = Ok (st', rq') -> completes_once rq rq'.
Proof.
  unfold fscall. destruct (fn =? SYS_OPENAT).
  - simpl. destruct (sysOpen _ _ _ _ _ _) as [[st1 [fd [e|]]]| |]; simpl;
      intros [= <- <-]; done_once.
  - simpl. destruct (GetInode _ _) as [[ni|e]| |]; simpl;
      [| intros [= <- <-]; done_once | discriminate | discriminate].
    destruct (fscall_switch _ _ _ _) as [[[st1 rq1] err]| |] eqn:Hsw; simpl;
      intros [= <- <-].
    apply fscall_switch_events in Hsw as (pre & Hpre & Hnot).
    simpl in Hpre. unfold completes_once.
    destruct err as [e|]; simpl; rewrite Hpre, <- ?app_assoc.
    + exists ([GetArg 0] ++ pre ++ [SetRet (isyscall_Error e)]).
      split; [rewrite <- ?app_assoc; reflexivity|].
      rewrite !not_elem_of_app. repeat split; [not_Done | exact Hnot | not_Done].
    + exists ([GetArg 0] ++ pre).
      split; [rewrite <- ?app_assoc; reflexivity|].
      rewrite !not_elem_of_app. split; [not_Done | exact Hnot].
Qed.

Lemma sysFstatat64_completes fuel rq st st' rq' :
  sysFstatat64 fuel rq st = Ok (st', rq') -> completes_once rq rq'.
Proof.
  unfold sysFstatat64. simpl.
  destruct (cstring _ _ _) as [name| |]; simpl; [|discriminate|discriminate].
  unfold call. destruct (Root_Stat _ _ _) as [[m wd] [info|err]]; simpl.
  - intros [= <- <-]; done_once.
  - destruct (os_IsNotExist err); intros [= <- <-]; done_once.
Qed.

(** *** Running to the end *)

Lemma sysOpen_runs fuel dirfd name flags perm st path :
  cstring fuel (mem st) name = Ok path ->
  exists st' r, sysOpen fuel dirfd name flags perm st = Ok (st', r).
Proof.
  intros Hpath. unfold sysOpen. rewrite Hpath. simpl.
  destruct (AllocInode (inodes st)) as [fd tbl]. unfold call. simpl.
  destruct (Root_OpenFile _ _ _ _ _) as [[m wd] [f|err]]; simpl.
  - eauto.
  - destruct (os_IsNotExist err); eauto.
Qed.

Lemma GetInode_runs (tbl : list (Inode (World:=World))) fd :
  0 <= fd ->
  GetInode fd tbl = Ok (inr (Errno EBADF)) \/
  exists ni, GetInode fd tbl = Ok (inl (Z.to_nat fd)) /\
             tbl !! Z.to_nat fd = Some ni /\ inuse ni = true.
Proof.
  intros Hfd. unfold GetInode.
  destruct (Z.geb_spec fd (Z.of_nat (length tbl))); [left; reflexivity|].
  destruct (Z.ltb_spec fd 0); [lia|].
  destruct (lookup_lt_is_Some_2 tbl (Z.to_nat fd)) as [ni Hni]; [lia|].
  rewrite Hni. destruct (inuse ni) eqn:Hused; simpl.
  - right. eauto.
  - left. reflexivity.
Qed.

Lemma File_call_runs {A : Type} st p ni (m : Stream -> ext A) :
  inodes st !! p = Some ni -> File ni <> None ->
  exists st' a, File_call p m st = Ok (st', a).
Proof.
  intros Hlook Hfile. unfold File_call, deref. rewrite Hlook. simpl.
  destruct (File ni) as [s|]; [|contradiction].
  destruct (call (m s) st) as [st' a]. eauto.
Qed.

Lemma fscall_switch_runs fn p rq st ni :
  inodes st !! p = Some ni ->
  (stream_needed fn = true -> File ni <> None) ->
  exists st' rq' err, fscall_switch fn p rq st = Ok (st', rq', err).
Proof.
  intros Hlook Hstream. unfold fscall_switch, stream_needed in *.
  destruct (fn =? SYS_READ).
  { simpl. unfold sysRead.
    destruct (File_call_runs st p ni
                (fun s => Stream_Read s (UnsafeBuffer (nth 1 (Args rq) 0)
                   (int_of_uintptr (nth 2 (Args rq) 0)))) Hlook (Hstream eq_refl))
      as (st1 & [n e] & ->). simpl.
    destruct (negb (n =? 0)); simpl; [eauto|].
    destruct e as [e|]; [destruct (is_EOF e)|]; simpl; eauto. }
  destruct (fn =? SYS_WRITE).
  { simpl. unfold sysWrite.
    destruct (File_call_runs st p ni
                (fun s => Stream_Write s (UnsafeBuffer (nth 1 (Args rq) 0)
                   (int_of_uintptr (nth 2 (Args rq) 0)))) Hlook (Hstream eq_refl))
      as (st1 & [n e] & ->). simpl.
    destruct (negb (n =? 0)); simpl; eauto. }
  destruct (fn =? SYS_CLOSE).
  { unfold sysClose.
    destruct (File_call_runs st p ni Stream_Close Hlook (Hstream eq_refl))
      as (st1 & e & ->). simpl. eauto. }
  destruct (fn =? SYS_FSTAT64).
  { simpl. unfold sysStat, deref. rewrite Hlook. simpl.
    destruct (File ni ≫= as_aferoFile) as [file_Stat|]; [|simpl; eauto].
    unfold call. destruct (file_Stat _ _) as [[m wd] [info|err]]; simpl; eauto. }
  destruct (fn =? SYS_IOCTL).
  { simpl. unfold sysIoctl, deref. rewrite Hlook. simpl.
    destruct (File ni ≫= as_Ioctler) as [ctl|]; [|simpl; eauto].
    destruct (call _ st) as [st1 e]. simpl. eauto. }
  eauto.
Qed.

Lemma fscall_runs fuel fn rq st :
  fn = SYS_OPENAT \/ fn = SYS_WRITE \/ fn = SYS_READ \/
  fn = SYS_CLOSE \/ fn = SYS_FSTAT64 \/ fn = SYS_IOCTL ->
  fault_free fuel fn rq st ->
  exists st' rq', fscall fuel fn rq st = Ok (st', rq').
Proof.
  intros Hfn Hfree. unfold fscall.
  destruct (Z.eqb_spec fn SYS_OPENAT) as [->|Hne].
  - destruct Hfree as [path Hpath]. simpl.
    destruct (sysOpen_runs fuel (nth 0 (Args rq) 0) (nth 1 (Args rq) 0)
                (nth 2 (Args rq) 0) (nth 3 (Args rq) 0) st path Hpath)
      as (st1 & [fd [e|]] & ->); simpl; eauto.
  - assert (Hfree' :
      0 <= int_of_uintptr (nth 0 (Args rq) 0) /\
      forall ni, inodes st !! Z.to_nat (int_of_uintptr (nth 0 (Args rq) 0))
                   = Some ni -> inuse ni = true ->
                 stream_needed fn = true -> File ni <> None).
    { destruct Hfn as [->|[->|[->|[->|[->| ->]]]]];
        [contradiction | exact Hfree ..]. }
    destruct Hfree' as [Hfd Hstream]. simpl.
    destruct (GetInode_runs (inodes st) _ Hfd) as [->|(ni & -> & Hlook & Hused)];
      simpl; [eauto|].
    destruct (fscall_switch_runs fn _ (snd (get_Arg 0 rq)) st ni Hlook
                (Hstream ni Hlook Hused)) as (st1 & rq1 & err & Hsw).
    unfold get_Arg in Hsw. simpl in Hsw. rewrite Hsw. simpl. eauto.
Qed.

Lemma GetInode_failed (tbl : list (Inode (World:=World))) fd e :
  GetInode fd tbl = Ok (inr e) ->
  0 <= fd /\ forall ni, tbl !! Z.to_nat fd = Some ni -> inuse ni = false.
Proof.
  unfold GetInode.
  destruct (Z.geb_spec fd (Z.of_nat (length tbl))) as [Hge|Hlt].
  - intros _. split; [lia|]. intros ni Hni.
    apply lookup_lt_Some in Hni. lia.
  - destruct (Z.ltb_spec fd 0); [discriminate|].
    destruct (tbl !! Z.to_nat fd) as [ni0|]; [|discriminate].
    destruct (inuse ni0) eqn:Hused; simpl; [discriminate|].
    intros _. split; [lia|]. intros ni [= <-]. exact Hused.
Qed.

(** A method call through an entry without a stream never returns. *)
Lemma File_call_nil {A : Type} st p ni (m : Stream -> ext A) :
  inodes st !! p = Some ni -> File ni = None ->
  File_call p m st = Panic "nil pointer dereference".
Proof.
  intros Hlook Hnil. unfold File_call, deref.
  rewrite Hlook. simpl. rewrite Hnil. reflexivity.
Qed.

Lemma sysClose_nil_stream st p ni :
  inodes st !! p = Some ni -> File ni = None ->
  sysClose p st = Panic "nil pointer dereference".
Proof.
  intros Hlook Hnil. unfold sysClose.
  rewrite (File_call_nil _ _ _ _ Hlook Hnil). reflexivity.
Qed.

(** [fscall] returns only from requests without the two faults. *)
Lemma fscall_returns_fault_free fuel fn rq st st' rq' :
  fn <> SYS_OPENAT ->
  fscall fuel fn rq st = Ok (st', rq') ->
  let fd := int_of_uintptr (nth 0 (Args rq) 0) in
  0 <= fd /\
  forall ni, inodes st !! Z.to_nat fd = Some ni -> inuse ni = true ->
             stream_needed fn = true -> File ni <> None.
Proof.
  intros Hfn. unfold fscall.
  destruct (Z.eqb_spec fn SYS_OPENAT); [contradiction|]. simpl.
  destruct (GetInode _ _) as [[p|e]| |] eqn:Hget; simpl;
    [| | discriminate | discriminate].
  - destruct (GetInode_found _ _ _ Hget) as (Hfd & -> & ni0 & Hlook & _).
    intros Hrun. split; [exact Hfd|].
    intros ni Hni _ Hneed Hnil. rewrite Hlook in Hni. injection Hni as ->.
    revert Hrun. unfold fscall_switch. unfold stream_needed in Hneed.
    destruct (fn =? SYS_READ).
    { simpl. unfold sysRead.
      rewrite (File_call_nil _ _ _ _ Hlook Hnil). discriminate. }
    destruct (fn =? SYS_WRITE).
    { simpl. unfold sysWrite.
      rewrite (File_call_nil _ _ _ _ Hlook Hnil). discriminate. }
    destruct (fn =? SYS_CLOSE).
    { rewrite (sysClose_nil_stream _ _ _ Hlook Hnil). discriminate. }
    discriminate Hneed.
  - intros _. destruct (GetInode_failed _ _ _ Hget) as [Hfd Hfree].
    split; [exact Hfd|]. intros ni Hni Hused. rewrite (Hfree ni Hni) in Hused.
    discriminate.
Qed.

(** The handlers return from exactly the requests that [fault_free]
    describes. *)
Lemma returns_only_fault_free fuel opcode h rq st st' rq' :
  registered fuel opcode = Some h ->
  h rq st = Ok (st', rq') ->
  fault_free fuel opcode rq st.
Proof.
  intros Hreg Hrun.
  destruct (registered_cases _ _ _ Hreg)
    as [[Hop ->]|[[Hop ->]|[[-> ->]|[[-> ->]|[-> ->]]]]].
  - destruct Hop as [->|Hop].
    + revert Hrun. unfold fscall, fault_free, sysOpen. simpl.
      destruct (cstring _ _ _) as [path| |]; simpl; [eauto | discriminate ..].
    + assert (Hne : opcode <> SYS_OPENAT)
        by (destruct Hop as [->|[->|[->|[->| ->]]]]; discriminate).
      pose proof (fscall_returns_fault_free _ _ _ _ _ _ Hne Hrun) as Hfree.
      destruct Hop as [->|[->|[->|[->| ->]]]]; exact Hfree.
  - destruct Hop as [->| ->]; exact I.
  - revert Hrun. unfold sysFstatat64, fault_free. simpl.
    destruct (cstring _ _ _) as [path| |]; simpl; [eauto | discriminate ..].
  - exact I.
  - exact I.
Qed.

(** X24. On a request free of the faults of [fault_free], every handler
    registered by [sysInit] runs to its end, and every run that reaches
    the end (each of the returning paths of [fscall] and of the directly
    registered handlers) has fired the completion signal exactly once,
    with nothing done to the request after it. *)
Theorem completion_fires_once fuel opcode h rq st :
  registered fuel opcode = Some h ->
  fault_free fuel opcode rq st ->
  exists st' rq',
    h rq st = Ok (st', rq') /\ completes_once rq rq' /\
    (forall st2 rq2, h rq st = Ok (st2, rq2) -> completes_once rq rq2).
Proof.
  intros Hreg Hfree.
  destruct (registered_cases _ _ _ Hreg)
    as [[Hop ->]|[[Hop ->]|[[-> ->]|[[-> ->]|[-> ->]]]]].
  - destruct (fscall_runs fuel opcode rq st Hop Hfree) as (st' & rq' & Hrun).
    exists st', rq'. split; [exact Hrun|].
    split; [exact (fscall_completes _ _ _ _ _ _ Hrun)|].
    intros st2 rq2. apply fscall_completes.
  - eexists _, _. split; [reflexivity|]. split; [done_once|].
    intros st2 rq2 [= <- <-]. done_once.
  - destruct Hfree as [path Hpath].
    assert (Hrun : exists st' rq', sysFstatat64 fuel rq st = Ok (st', rq')).
    { unfold sysFstatat64. simpl. rewrite Hpath. simpl. unfold call.
      destruct (Root_Stat _ _ _) as [[m wd] [info|err]]; simpl; eauto. }
    destruct Hrun as (st' & rq' & Hrun). exists st', rq'.
    split; [exact Hrun|].
    split; [exact (sysFstatat64_completes _ _ _ _ _ Hrun)|].
    intros st2 rq2. apply sysFstatat64_completes.
  - eexists _, _. split; [reflexivity|]. split; [done_once|].
    intros st2 rq2 [= <- <-]. done_once.
  - unfold sysRandom. simpl.
    destruct (call _ st) as [st1 u].
    eexists _, _. split; [reflexivity|]. split; [done_once|].
    intros st2 rq2 [= <- <-]. done_once.
Qed.

End HandlerFacts.

(** ** The handlers on the sample platform *)

Lemma sample_boot_table :
  inodes sample_boot =
    [ {| File := Some sample_stdin; Fd := 0; inuse := true |};
      {| File := Some sample_stdout; Fd := 1; inuse := true |};
      {| File := Some sample_stdout; Fd := 2; inuse := true |};
      {| File := Some sample_epoll; Fd := 3; inuse := true |} ].
Proof. reflexivity. Qed.

Lemma sample_open_on_boot :
  open_on sample_boot 0 sample_stdin /\
  open_on sample_boot 1 sample_stdout /\
  open_on sample_boot 3 sample_epoll.
Proof.
  repeat split; try lia; eexists; repeat split; reflexivity.
Qed.

Lemma sample_open_on_file : open_on sample_opened 4 (Other sample_file).
Proof. split; [lia|]. eexists. repeat split; reflexivity. Qed.

(** Boot, then [write(1, "hi", 2)]: the result is [2]. *)
Example boot_write_hi :
  exists st' rq',
    fscall 16 SYS_WRITE (sample_request [1; 300; 2]) sample_boot
      = Ok (st', rq') /\ Ret rq' = 2.
Proof. eexists _, _. split; reflexivity. Qed.

(** Boot, then open of the one file: descriptor 4, bound to the file. *)
Example boot_open_existing :
  fscall 16 SYS_OPENAT (sample_request [0; 200; 0; 0]) sample_boot
    = Ok (sample_opened,
          {| Args := [0; 200; 0; 0]; Ret := 4;
             events := [GetArg 0; GetArg 1; GetArg 2; GetArg 3;
                        SetRet 4; Done] |}).
Proof. reflexivity. Qed.

(** C1. Boot, then [open("/missing")], which the root file system
    answers with a not-exist error: the request's result is the encoded
    [ENOENT], and the table has grown by the entry [sysOpen] allocated
    before it asked the file system; that entry is in use, has no stream
    and is never handed to the caller.  Five entries are in use where
    four were, and a later read on handle 4 faults on the missing
    stream. *)
Theorem open_missing_leaks_descriptor :
  let leaked := {| File := None; Fd := 4; inuse := true |} in
  let st' := with_inodes (inodes sample_boot ++ [leaked]) sample_boot in
  cstring 16 (mem sample_boot) 100 = Ok "/missing"%string /\
  sysOpen 16 0 100 0 0 sample_boot = Ok (st', (0, Some (Errno ENOENT))) /\
  fscall 16 SYS_OPENAT (sample_request [0; 100; 0; 0]) sample_boot
    = Ok (st',
          {| Args := [0; 100; 0; 0]; Ret := sample_Error (Errno ENOENT);
             events := [GetArg 0; GetArg 1; GetArg 2; GetArg 3;
                        SetRet (sample_Error (Errno ENOENT)); Done] |}) /\
  inuse_count (inodes sample_boot) = 4%nat /\
  inuse_count (inodes st') = 5%nat /\
  inodes st' <> inodes sample_boot /\
  fscall 16 SYS_READ (sample_request [4; 300; 1]) st'
    = Panic "nil pointer dereference".
Proof.
  repeat split; try reflexivity.
  intros Heq. apply (f_equal length) in Heq. discriminate Heq.
Qed.

(** C3. The handle [-1], which is what [int(c.Args[0])] is for the
    argument word [0xFFFFFFFF], is below the table length: [GetInode]
    indexes the table with it and the lookup ends in a run-time panic,
    not in [EBADF]; the request that carried it is never completed. *)
Theorem lookup_negative_handle_panics :
  int_of_uintptr 4294967295 = -1 /\
  GetInode (-1) (inodes sample_boot) = Panic "index out of range" /\
  GetInode (-1) (inodes sample_boot) <> Ok (inr (Errno EBADF)) /\
  fscall 16 SYS_READ (sample_request [4294967295; 300; 1]) sample_boot
    = Panic "index out of range".
Proof. repeat split; try reflexivity. discriminate. Qed.

(** A negative handle stops [fscall] before any completion, whatever
    the opcode it serves other than [openat]. *)
Lemma fscall_negative_handle {World : Type} {P : Platform (World:=World)}
    fuel fn (rq : Request) (st : State (World:=World)) :
  fn <> SYS_OPENAT ->
  int_of_uintptr (nth 0 (Args rq) 0) < 0 ->
  fscall fuel fn rq st = Panic "index out of range".
Proof.
  intros Hfn Hneg. unfold fscall.
  destruct (Z.eqb_spec fn SYS_OPENAT); [contradiction|].
  simpl. rewrite (GetInode_negative _ _ Hneg). reflexivity.
Qed.

(** C9. A request whose [Args[0]] is [0xFFFFFFFF], sent after boot to
    any of the five descriptor opcodes that [sysInit] routes to
    [fscall]: the handle read from it is [-1], [GetInode] panics on it,
    and the handler ends there, before either of its calls of [Done].
    The handler returns no request, so the completion signal of this
    request is fired zero times, not once.  The same holds on the path
    through an entry in use that has no stream, as left behind by a
    failed open: the method call on the nil stream panics before
    [Done]. *)
Theorem completion_lost_on_fault :
  let rq := sample_request [4294967295; 300; 1] in
  let leaked := {| File := None; Fd := 4; inuse := true |} in
  let st4 := with_inodes (inodes sample_boot ++ [leaked]) sample_boot in
  int_of_uintptr (nth 0 (Args rq) 0) = -1 /\
  registered 16 SYS_READ = Some (fscall 16 SYS_READ) /\
  fscall 16 SYS_READ rq sample_boot = Panic "index out of range" /\
  fscall 16 SYS_WRITE rq sample_boot = Panic "index out of range" /\
  fscall 16 SYS_CLOSE rq sample_boot = Panic "index out of range" /\
  fscall 16 SYS_FSTAT64 rq sample_boot = Panic "index out of range" /\
  fscall 16 SYS_IOCTL rq sample_boot = Panic "index out of range" /\
  ~ (exists st' rq', fscall 16 SYS_READ rq sample_boot = Ok (st', rq') /\
                     completes_once rq rq') /\
  fscall 16 SYS_CLOSE (sample_request [4]) st4
    = Panic "nil pointer dereference" /\
  ~ (exists st' rq', fscall 16 SYS_CLOSE (sample_request [4]) st4
                       = Ok (st', rq') /\
                     completes_once (sample_request [4]) rq').
Proof.
  intros rq leaked st4.
  assert (Hneg : int_of_uintptr (nth 0 (Args rq) 0) < 0) by reflexivity.
  split; [reflexivity|]. split; [reflexivity|].
  split; [apply fscall_negative_handle; [discriminate | exact Hneg]|].
  split; [apply fscall_negative_handle; [discriminate | exact Hneg]|].
  split; [apply fscall_negative_handle; [discriminate | exact Hneg]|].
  split; [apply fscall_negative_handle; [discriminate | exact Hneg]|].
  split; [apply fscall_negative_handle; [discriminate | exact Hneg]|].
  split.
  { intros (st' & rq' & Hrun & _).
    rewrite (fscall_negative_handle 16 SYS_READ rq sample_boot) in Hrun;
      [discriminate Hrun | discriminate | exact Hneg]. }
  assert (Hnil : fscall 16 SYS_CLOSE (sample_request [4]) st4
                 = Panic "nil pointer dereference") by reflexivity.
  split; [exact Hnil|].
  intros (st' & rq' & Hrun & _). rewrite Hnil in Hrun. discriminate Hrun.
Qed.

(** C4, counterexample. After boot, descriptor 3 is open on a stream
    with no half wired, which has no ioctl capability; [ioctl] on it
    fails with [EBADF], not with [EINVAL]. *)
Lemma ioctl_unwired_stream_not_EINVAL :
  open_on sample_boot 3 sample_epoll /\
  ioctl_capability sample_epoll = None /\
  sysIoctl 3 0 0 sample_boot = Ok (sample_boot, Some (Errno EBADF)) /\
  sysIoctl 3 0 0 sample_boot <> Ok (sample_boot, Some (Errno EINVAL)) /\
  exists rq',
    fscall 16 SYS_IOCTL (sample_request [3; 0; 0]) sample_boot
      = Ok (sample_boot, rq') /\
    Ret rq' = sample_Error (Errno EBADF) /\
    Ret rq' <> sample_Error (Errno EINVAL).
Proof.
  split; [apply sample_open_on_boot|].
  split; [reflexivity|]. split; [reflexivity|].
  split; [discriminate|].
  eexists. split; [reflexivity|]. split; [reflexivity | discriminate].
Qed.

(** ** The theorems at concrete inputs *)

(** Three descriptors, index 1 released: the next handle is 1.  Index 0
    released instead: the next handle is 3, and slot 0 stays free. *)
Lemma alloc_release_alloc_witness :
  let ss := [sample_stdin; sample_stdout; sample_stdout] in
  (1 < length ss)%nat /\
  fst (AllocInode (alter Release 1%nat (alloc_files ss []))) = 1 /\
  fst (AllocInode (alter Release 0%nat (alloc_files ss []))) = 3 /\
  inuse <$> snd (AllocInode (alter Release 0%nat (alloc_files ss []))) !! 0%nat
    = Some false.
Proof.
  intros ss.
  assert (H1 : (1 < length ss)%nat) by (simpl; lia).
  assert (H0 : (0 < length ss)%nat) by (simpl; lia).
  pose proof (alloc_release_alloc ss 1%nat H1) as (_ & Hreuse & _).
  pose proof (alloc_release_alloc ss 0%nat H0) as (Hlen & _ & Hzero).
  specialize (Hreuse ltac:(lia)).
  destruct (Hzero eq_refl) as [Happend Hslot].
  split; [exact H1|]. split; [rewrite Hreuse; reflexivity|].
  split; [rewrite Happend; reflexivity | exact Hslot].
Defined.

(** Capability checks after boot: [fstat] on the console's read end,
    [ioctl] on the file of the sample root, [ioctl] on the unwired
    descriptor 3. *)
Lemma capability_failures_witness :
  let rq0 := sample_request [0; 400; 0] in
  let rq3 := sample_request [3; 0; 0] in
  let rq4 := sample_request [4; 0; 0] in
  (nth 0 (Args rq0) 0 = 0 /\ open_on sample_boot 0 sample_stdin) /\
  (nth 0 (Args rq4) 0 = 4 /\ open_on sample_opened 4 (Other sample_file)) /\
  (nth 0 (Args rq3) 0 = 3 /\ open_on sample_boot 3 sample_epoll) /\
  sysStat 0 400 sample_boot = Ok (sample_boot, Some (Errno EINVAL)) /\
  sysIoctl 4 0 0 sample_opened = Ok (sample_opened, Some (Errno EINVAL)) /\
  sysIoctl 3 0 0 sample_boot = Ok (sample_boot, Some (Errno EBADF)).
Proof.
  intros rq0 rq3 rq4.
  destruct sample_open_on_boot as (Hin & _ & Hepoll).
  pose proof sample_open_on_file as Hfile.
  pose proof (capability_failures 16 rq0 sample_boot 0 sample_stdin
                eq_refl Hin) as (Hstat & _ & _).
  pose proof (capability_failures 16 rq4 sample_opened 4 (Other sample_file)
                eq_refl Hfile) as (_ & Hioctl & _).
  pose proof (capability_failures 16 rq3 sample_boot 3 sample_epoll
                eq_refl Hepoll) as (_ & _ & Hhalf).
  split; [split; [reflexivity | exact Hin]|].
  split; [split; [reflexivity | exact Hfile]|].
  split; [split; [reflexivity | exact Hepoll]|].
  split; [exact (proj1 (Hstat eq_refl))|].
  split; [exact (proj1 (Hioctl eq_refl))|].
  exact (proj1 (Hhalf _ eq_refl eq_refl)).
Defined.

(** Closing the sample file, whose close fails: the entry is released
    and the failure is the result. *)
Lemma close_releases_descriptor_witness :
  let rq := sample_request [4] in
  let err := Some (OtherError "close failed") in
  nth 0 (Args rq) 0 = 4 /\
  open_on sample_opened 4 (Other sample_file) /\
  Stream_Close (Other sample_file) (mem sample_opened) (world sample_opened)
    = (mem sample_opened, world sample_opened, err) /\
  exists st' rq',
    sysClose 4 sample_opened = Ok (st', err) /\
    fscall 16 SYS_CLOSE rq sample_opened = Ok (st', rq') /\
    inodes st' !! 4%nat = Some released_Inode /\
    Ret rq' = sample_Error (OtherError "close failed").
Proof.
  intros rq err.
  pose proof sample_open_on_file as Hfile.
  assert (Hclose : Stream_Close (Other sample_file) (mem sample_opened)
                     (world sample_opened)
                   = (mem sample_opened, world sample_opened, err))
    by reflexivity.
  destruct (close_releases_descriptor 16 rq sample_opened 4 (Other sample_file)
              _ _ _ eq_refl Hfile Hclose)
    as (st' & rq' & Hsys & Hcall & _ & Hslot & _ & _ & Hret).
  split; [reflexivity|]. split; [exact Hfile|]. split; [exact Hclose|].
  exists st', rq'.
  split; [exact Hsys|]. split; [exact Hcall|]. split; [exact Hslot|].
  exact Hret.
Defined.

(** Boot, then a read on descriptor 0 with the console at end of input:
    the result is [0]. *)
Lemma read_at_end_of_stream_witness :
  let rq := sample_request [0; 300; 4] in
  nth 0 (Args rq) 0 = 0 /\
  open_on sample_boot 0 sample_stdin /\
  Stream_Read sample_stdin (UnsafeBuffer 300 (int_of_uintptr 4))
    (mem sample_boot) (world sample_boot)
    = (mem sample_boot, world sample_boot, (0, Some EOF)) /\
  sysRead 0 300 4 sample_boot = Ok (sample_boot, (0, None)) /\
  exists rq',
    fscall 16 SYS_READ rq sample_boot = Ok (sample_boot, rq') /\
    Ret rq' = 0 /\
    events rq' = [GetArg 0; GetArg 1; GetArg 2; SetRet 0; Done].
Proof.
  intros rq.
  destruct sample_open_on_boot as (Hin & _ & _).
  assert (Hread : Stream_Read sample_stdin
                    (UnsafeBuffer (nth 1 (Args rq) 0)
                                  (int_of_uintptr (nth 2 (Args rq) 0)))
                    (mem sample_boot) (world sample_boot)
                  = (mem sample_boot, world sample_boot, (0, Some EOF)))
    by reflexivity.
  destruct (read_at_end_of_stream 16 rq sample_boot 0 sample_stdin _ _
              eq_refl Hin Hread) as (Hsys & rq' & Hcall & Hret & Hev).
  split; [reflexivity|]. split; [exact Hin|]. split; [exact Hread|].
  split; [exact Hsys|]. exists rq'.
  split; [exact Hcall|]. split; [exact Hret | exact Hev].
Defined.

(** Write-only and read-only console ends after boot: a read on
    descriptor 1 and a write on descriptor 0. *)
Lemma wrong_direction_errors_witness :
  let rq1 := sample_request [1; 300; 4] in
  let rq0 := sample_request [0; 300; 4] in
  nth 0 (Args rq1) 0 = 1 /\ nth 0 (Args rq0) 0 = 0 /\
  sysRead 1 300 4 sample_boot = Ok (sample_boot, (0, Some (Errno EINVAL))) /\
  sysWrite 0 300 4 sample_boot = Ok (sample_boot, (0, Some (Errno EROFS))) /\
  (exists rq', fscall 16 SYS_READ rq1 sample_boot = Ok (sample_boot, rq') /\
               Ret rq' = sample_Error (Errno EINVAL)) /\
  (exists rq', fscall 16 SYS_WRITE rq0 sample_boot = Ok (sample_boot, rq') /\
               Ret rq' = sample_Error (Errno EROFS)).
Proof.
  intros rq1 rq0.
  destruct sample_open_on_boot as (Hin & Hout & _).
  pose proof (wrong_direction_errors 16 rq1 sample_boot 1
                None (Some sample_console_Writer) None eq_refl)
    as (_ & _ & Hrd & _).
  pose proof (wrong_direction_errors 16 rq0 sample_boot 0
                (Some sample_console_Reader) None None eq_refl)
    as (_ & _ & _ & Hwr).
  destruct (Hrd Hout) as [Hsysr Hcallr].
  destruct (Hwr Hin) as [Hsysw Hcallw].
  split; [reflexivity|]. split; [reflexivity|].
  split; [exact Hsysr|]. split; [exact Hsysw|].
  split; [exact Hcallr | exact Hcallw].
Defined.

(** The sample file moves bytes and reports an error with them: the
    counts 2 and 1 are the results, the errors are dropped. *)
Lemma transfer_error_discarded_witness :
  let rq := sample_request [4; 300; 8] in
  nth 0 (Args rq) 0 = 4 /\
  open_on sample_opened 4 (Other sample_file) /\
  2 <> 0 /\ 1 <> 0 /\
  sysRead 4 300 8 sample_opened
    = Ok (with_mem (store_bytes (mem sample_opened) 300 [104; 105])
                   sample_opened, (2, None)) /\
  sysWrite 4 300 8 sample_opened = Ok (sample_opened, (1, None)) /\
  (exists st' rq', fscall 16 SYS_READ rq sample_opened = Ok (st', rq') /\
                   Ret rq' = 2) /\
  (exists st' rq', fscall 16 SYS_WRITE rq sample_opened = Ok (st', rq') /\
                   Ret rq' = 1).
Proof.
  intros rq.
  pose proof sample_open_on_file as Hfile.
  assert (H2 : 2 <> 0) by discriminate.
  assert (H1 : 1 <> 0) by discriminate.
  pose proof (transfer_error_discarded 16 rq sample_opened 4
                (Other sample_file)
                (store_bytes (mem sample_opened) 300 [104; 105])
                (world sample_opened) 2 (OtherError "short read")
                eq_refl Hfile H2) as [Hrd _].
  pose proof (transfer_error_discarded 16 rq sample_opened 4
                (Other sample_file) (mem sample_opened)
                (world sample_opened) 1 (OtherError "disk full")
                eq_refl Hfile H1) as [_ Hwr].
  destruct (Hrd eq_refl) as (Hsysr & rqr & Hcallr & Hretr & _).
  destruct (Hwr eq_refl) as (Hsysw & rqw & Hcallw & Hretw & _).
  split; [reflexivity|]. split; [exact Hfile|].
  split; [exact H2|]. split; [exact H1|].
  split; [exact Hsysr|]. split; [exact Hsysw|].
  split.
  - eexists _, rqr. split; [exact Hcallr | exact Hretr].
  - eexists _, rqw. split; [exact Hcallw | exact Hretw].
Defined.

(** A read on descriptor 0 after boot is free of faults and completes
    once; so does an open of a path that does not exist. *)
Lemma completion_fires_once_witness :
  let rq := sample_request [0; 300; 4] in
  let rqo := sample_request [0; 100; 0; 0] in
  registered 16 SYS_READ = Some (fscall 16 SYS_READ) /\
  fault_free 16 SYS_READ rq sample_boot /\
  registered 16 SYS_OPENAT = Some (fscall 16 SYS_OPENAT) /\
  fault_free 16 SYS_OPENAT rqo sample_boot /\
  (exists st' rq', fscall 16 SYS_READ rq sample_boot = Ok (st', rq') /\
                   completes_once rq rq') /\
  (exists st' rq', fscall 16 SYS_OPENAT rqo sample_boot = Ok (st', rq') /\
                   completes_once rqo rq').
Proof.
  intros rq rqo.
  assert (Hreg : registered 16 SYS_READ = Some (fscall 16 SYS_READ))
    by reflexivity.
  assert (Hrego : registered 16 SYS_OPENAT = Some (fscall 16 SYS_OPENAT))
    by reflexivity.
  assert (Hfree : fault_free 16 SYS_READ rq sample_boot).
  { split; [discriminate|]. intros ni [= <-] _ _. discriminate. }
  assert (Hfreeo : fault_free 16 SYS_OPENAT rqo sample_boot).
  { exists "/missing"%string. reflexivity. }
  destruct (completion_fires_once 16 SYS_READ _ rq sample_boot Hreg Hfree)
    as (st1 & rq1 & Hrun1 & Honce1 & _).
  destruct (completion_fires_once 16 SYS_OPENAT _ rqo sample_boot Hrego Hfreeo)
    as (st2 & rq2 & Hrun2 & Honce2 & _).
  split; [exact Hreg|]. split; [exact Hfree|].
  split; [exact Hrego|]. split; [exact Hfreeo|].
  split.
  - exists st1, rq1. split; [exact Hrun1 | exact Honce1].
  - exists st2, rq2. split; [exact Hrun2 | exact Honce2].
Defined.


(** * Further properties of the table *)

Section TableMore.

Context {World : Type}.

Implicit Types (tbl : list (Inode (World:=World))) (ni : Inode (World:=World)).

Lemma scan_free_none_inv tbl i : scan_free tbl i = None -> all_inuse tbl.
Proof.
  revert i. induction tbl as [|e tbl IH]; intros i Hscan; [constructor|].
  simpl in Hscan. destruct (inuse e) eqn:He; simpl in Hscan; [|discriminate].
  constructor; [exact He | exact (IH _ Hscan)].
Qed.

(** The two ways an allocation goes. *)
Lemma AllocInode_cases tbl :
  (exists k ni, (0 < k)%nat /\ tbl !! k = Some ni /\ inuse ni = false /\
     all_inuse (take k tbl) /\
     AllocInode tbl =
       (Z.of_nat k,
        <[k := {| File := File ni; Fd := Z.of_nat k; inuse := true |}]> tbl))
  \/ ((all_inuse tbl \/ exists ni, tbl !! 0%nat = Some ni /\ inuse ni = false) /\
      AllocInode tbl =
        (Z.of_nat (length tbl),
         tbl ++ [ {| File := None; Fd := Z.of_nat (length tbl);
                     inuse := true |} ])).
Proof.
  destruct (scan_free tbl 0) as [j|] eqn:Hscan.
  - destruct (scan_free_some _ _ _ Hscan) as (k & ni & -> & Hk & Hfree & Hpre).
    destruct k as [|k].
    + right. split; [right; eauto|]. exact (AllocInode_slot0 tbl ni Hk Hfree).
    + left. exists (S k), ni. repeat split; try assumption; [lia|].
      apply AllocInode_reuse; (lia || assumption).
  - right. pose proof (scan_free_none_inv _ _ Hscan) as Hall.
    split; [left; exact Hall|]. exact (AllocInode_full tbl Hall).
Qed.

(** X1. What an allocation hands out, on any table: a handle between
    [0] and the table length whose slot was free or did not exist; after
    the call that slot is in use and carries the handle, a reused slot
    keeps the stream field it had, a new slot has none; no other slot is
    touched and the table grows by one entry at most. *)
Theorem AllocInode_post tbl fd tbl' :
  AllocInode tbl = (fd, tbl') ->
  0 <= fd <= Z.of_nat (length tbl) /\
  (exists ni', tbl' !! Z.to_nat fd = Some ni' /\ inuse ni' = true /\
               Fd ni' = fd /\
               match tbl !! Z.to_nat fd with
               | Some ni => inuse ni = false /\ File ni' = File ni /\
                            length tbl' = length tbl
               | None => File ni' = None /\ length tbl' = S (length tbl)
               end) /\
  (forall j, j <> Z.to_nat fd -> (j < length tbl)%nat ->
             tbl' !! j = tbl !! j).
Proof.
  intros Halloc.
  destruct (AllocInode_cases tbl)
    as [(k & ni & Hk & Hlook & Hfree & _ & Heq)|[_ Heq]];
    rewrite Heq in Halloc; injection Halloc as <- <-; rewrite Nat2Z.id.
  - pose proof (lookup_lt_Some _ _ _ Hlook) as Hlt.
    split; [lia|]. split.
    + eexists. split; [apply list_lookup_insert_eq; exact Hlt|].
      rewrite Hlook. simpl. rewrite length_insert. auto.
    + intros j Hj _. apply list_lookup_insert_ne. congruence.
  - split; [lia|]. split.
    + eexists. split.
      { rewrite lookup_app_r by lia. rewrite Nat.sub_diag. reflexivity. }
      rewrite (lookup_ge_None_2 tbl (length tbl)) by lia.
      simpl. rewrite length_app. simpl. repeat split; lia.
    + intros j _ Hj. apply lookup_app_l. exact Hj.
Qed.

(** X2. Handle [0] is handed out by the allocation on the empty table
    and by no other. *)
Theorem AllocInode_zero_iff_empty tbl :
  fst (AllocInode tbl) = 0 <-> tbl = [].
Proof.
  destruct (AllocInode_cases tbl)
    as [(k & ni & Hk & Hlook & _ & _ & Heq)|[_ Heq]]; rewrite Heq; simpl.
  - split; [lia|]. intros ->. discriminate Hlook.
  - destruct tbl; simpl; split; (reflexivity || discriminate || lia).
Qed.

(** X3. While slot [0] is free the table only grows: each of [n]
    allocations in a row appends an entry, none reuses a slot (slot [0]
    or any other free one), and the old entries stay as they were. *)
Theorem slot0_free_never_reused tbl ni n :
  tbl !! 0%nat = Some ni -> inuse ni = false ->
  length (alloc_n n tbl) = (length tbl + n)%nat /\
  take (length tbl) (alloc_n n tbl) = tbl /\
  alloc_n n tbl !! 0%nat = Some ni.
Proof.
  revert tbl. induction n as [|n IH]; intros tbl H0 Hfree; simpl.
  - split; [lia|]. split; [apply firstn_all | exact H0].
  - rewrite (AllocInode_slot0 tbl ni H0 Hfree). simpl.
    set (tbl1 := tbl ++ [ {| File := None; Fd := Z.of_nat (length tbl);
                             inuse := true |} ]).
    assert (H1 : tbl1 !! 0%nat = Some ni).
    { unfold tbl1. rewrite lookup_app_l; [exact H0|].
      apply lookup_lt_Some in H0. exact H0. }
    destruct (IH tbl1 H1 Hfree) as (Hlen & Htake & Hslot).
    assert (Hlen1 : length tbl1 = S (length tbl)).
    { unfold tbl1. rewrite length_app. simpl. lia. }
    split; [lia|]. split; [|exact Hslot].
    replace (length tbl) with (Nat.min (length tbl) (length tbl1)) at 1 by lia.
    rewrite <- take_take, Htake. unfold tbl1.
    rewrite take_app_length. reflexivity.
Qed.

Lemma GetInode_panics_iff tbl fd why :
  GetInode fd tbl = Panic why -> fd < 0.
Proof.
  unfold GetInode.
  destruct (Z.geb_spec fd (Z.of_nat (length tbl))); [discriminate|].
  destruct (Z.ltb_spec fd 0); [intros _; assumption|].
  destruct (lookup_lt_is_Some_2 tbl (Z.to_nat fd)) as [ni Hni]; [lia|].
  rewrite Hni. destruct (inuse ni); discriminate.
Qed.

(** X5. Lookup, case by case: it finds an entry exactly for a
    non-negative handle whose slot exists and is in use, and then the
    pointer is that slot; its only error is [EBADF], returned exactly
    for a non-negative handle that has no slot or a slot not in use; it
    panics exactly on a negative handle. *)
Theorem GetInode_spec tbl fd :
  (forall p, GetInode fd tbl = Ok (inl p) <->
     0 <= fd /\ p = Z.to_nat fd /\
     exists ni, tbl !! p = Some ni /\ inuse ni = true) /\
  (forall e, GetInode fd tbl = Ok (inr e) <->
     e = Errno EBADF /\ 0 <= fd /\
     forall ni, tbl !! Z.to_nat fd = Some ni -> inuse ni = false) /\
  (GetInode fd tbl = Panic "index out of range" <-> fd < 0).
Proof.
  split; [|split].
  - intros p. split; [apply GetInode_found|].
    intros (Hfd & -> & ni & Hlook & Hused).
    exact (GetInode_live tbl fd ni Hfd Hlook Hused).
  - intros e. split.
    + intros Hget. destruct (GetInode_failed tbl fd e Hget) as [Hfd Hfree].
      split; [|split; assumption].
      destruct (GetInode_runs tbl fd Hfd) as [Herr|(ni & Hok & _)];
        congruence.
    + intros (-> & Hfd & Hfree).
      destruct (GetInode_runs tbl fd Hfd) as [Herr|(ni & _ & Hlook & Hused)];
        [exact Herr|].
      rewrite (Hfree ni Hlook) in Hused. discriminate.
  - split; [apply GetInode_panics_iff | apply GetInode_negative].
Qed.

Lemma GetInode_live_nat tbl k ni :
  tbl !! k = Some ni -> inuse ni = true ->
  GetInode (Z.of_nat k) tbl = Ok (inl k).
Proof.
  intros Hlook Hused.
  pose proof (GetInode_live tbl (Z.of_nat k) ni) as Hlive.
  rewrite Nat2Z.id in Hlive. apply Hlive; [lia | exact Hlook | exact Hused].
Qed.

(** X4. Allocation and lookup compose: the handle returned for a
    stream resolves, in the table returned with it, to an entry in use
    that holds this stream and this handle. *)
Theorem AllocFileNode_then_GetInode s tbl fd tbl' :
  AllocFileNode s tbl = (fd, tbl') ->
  GetInode fd tbl' = Ok (inl (Z.to_nat fd)) /\
  tbl' !! Z.to_nat fd
    = Some {| File := Some s; Fd := fd; inuse := true |}.
Proof.
  unfold AllocFileNode.
  destruct (AllocInode_cases tbl)
    as [(k & ni & Hk & Hlook & _ & _ & Heq)|[_ Heq]];
    rewrite Heq; intros [= <- <-]; rewrite Nat2Z.id.
  - pose proof (lookup_lt_Some _ _ _ Hlook) as Hlt.
    assert (Hnew : alter (set_File (Some s)) k
                     (<[k := {| File := File ni; Fd := Z.of_nat k;
                                inuse := true |}]> tbl) !! k
                   = Some {| File := Some s; Fd := Z.of_nat k;
                             inuse := true |}).
    { rewrite list_lookup_alter_eq, list_lookup_insert_eq by exact Hlt.
      reflexivity. }
    split; [|exact Hnew].
    exact (GetInode_live_nat _ _ _ Hnew eq_refl).
  - set (n := length tbl).
    assert (Hnew : alter (set_File (Some s)) n
                     (tbl ++ [ {| File := None; Fd := Z.of_nat n;
                                  inuse := true |} ]) !! n
                   = Some {| File := Some s; Fd := Z.of_nat n;
                             inuse := true |}).
    { rewrite list_lookup_alter_eq, lookup_app_r by (unfold n; lia).
      unfold n. rewrite Nat.sub_diag. reflexivity. }
    split; [|exact Hnew].
    exact (GetInode_live_nat _ _ _ Hnew eq_refl).
Qed.

Lemma inuse_count_alter_same tbl k f :
  (forall ni, inuse (f ni) = inuse ni) ->
  inuse_count (alter f k tbl) = inuse_count tbl.
Proof.
  intros Hf. revert k. induction tbl as [|e tbl IH]; intros k; [reflexivity|].
  change (e :: tbl) with ([e] ++ tbl).
  destruct k as [|k].
  - change (alter f 0%nat ([e] ++ tbl)) with ([f e] ++ tbl).
    rewrite !inuse_count_app. f_equal.
    unfold inuse_count. rewrite !filter_cons, Hf.
    destruct (decide (inuse e = true)); reflexivity.
  - change (alter f (S k) ([e] ++ tbl)) with ([e] ++ alter f k tbl).
    rewrite !inuse_count_app, IH. reflexivity.
Qed.

Lemma inuse_count_alter_release tbl k ni :
  tbl !! k = Some ni -> inuse ni = true ->
  S (inuse_count (alter Release k tbl)) = inuse_count tbl.
Proof.
  intros Hk Hused.
  assert (Hlen : length (take k tbl) = k).
  { apply length_take_le. apply lookup_lt_Some in Hk. lia. }
  rewrite <- (take_drop_middle tbl k ni Hk).
  rewrite alter_app_r_alt by lia. rewrite Hlen, Nat.sub_diag. simpl.
  change (Release ni :: drop (S k) tbl) with ([Release ni] ++ drop (S k) tbl).
  change (ni :: drop (S k) tbl) with ([ni] ++ drop (S k) tbl).
  rewrite !inuse_count_app.
  assert (H1 : inuse_count [ni] = 1%nat).
  { unfold inuse_count. rewrite filter_cons_True by exact Hused. reflexivity. }
  assert (H0 : inuse_count [Release ni] = 0%nat).
  { unfold inuse_count. rewrite filter_cons_False by discriminate.
    reflexivity. }
  lia.
Qed.

(** *** The shape of the table *)

Lemma table_ok_nil : table_ok ([] : list (Inode (World:=World))).
Proof. intros i ni Hlook. discriminate Hlook. Qed.

Lemma table_ok_AllocInode tbl :
  table_ok tbl -> table_ok (snd (AllocInode tbl)).
Proof.
  intros Hok.
  destruct (AllocInode_cases tbl)
    as [(k & ni & Hk & Hlook & _ & _ & Heq)|[_ Heq]]; rewrite Heq; simpl.
  - intros i e Hi. destruct (decide (k = i)) as [<-|Hne].
    + rewrite list_lookup_insert_eq in Hi by (apply lookup_lt_Some in Hlook; lia).
      injection Hi as <-. reflexivity.
    + rewrite list_lookup_insert_ne in Hi by done. exact (Hok i e Hi).
  - intros i e Hi. apply lookup_app_Some in Hi as [Hi|[Hge Hi]].
    + exact (Hok i e Hi).
    + apply list_lookup_singleton_Some in Hi as [Hidx <-]. simpl. f_equal. lia.
Qed.

Lemma table_ok_bind tbl k ni f :
  table_ok tbl -> tbl !! k = Some ni -> inuse ni = true ->
  table_ok (alter (set_File f) k tbl).
Proof.
  intros Hok Hlook Hused i e Hi. destruct (decide (k = i)) as [<-|Hne].
  - rewrite list_lookup_alter_eq, Hlook in Hi. injection Hi as <-.
    simpl. rewrite Hused. specialize (Hok k ni Hlook). rewrite Hused in Hok.
    exact Hok.
  - rewrite list_lookup_alter_ne in Hi by done. exact (Hok i e Hi).
Qed.

Lemma table_ok_Release tbl k :
  table_ok tbl -> table_ok (alter Release k tbl).
Proof.
  intros Hok i e Hi. destruct (decide (k = i)) as [<-|Hne].
  - rewrite list_lookup_alter_eq in Hi.
    destruct (tbl !! k) as [ni|]; [|discriminate].
    injection Hi as <-. simpl. auto.
  - rewrite list_lookup_alter_ne in Hi by done. exact (Hok i e Hi).
Qed.

Lemma table_ok_AllocFileNode s tbl :
  table_ok tbl -> table_ok (snd (AllocFileNode s tbl)).
Proof.
  intros Hok. unfold AllocFileNode.
  pose proof (table_ok_AllocInode tbl Hok) as Hok1.
  destruct (AllocInode_cases tbl)
    as [(k & ni & Hk & Hlook & _ & _ & Heq)|[_ Heq]];
    rewrite Heq in *; simpl in *; rewrite Nat2Z.id.
  - eapply table_ok_bind;
      [ exact Hok1
      | apply list_lookup_insert_eq; apply lookup_lt_Some in Hlook; exact Hlook
      | reflexivity ].
  - eapply table_ok_bind;
      [ exact Hok1
      | rewrite lookup_app_r by lia; rewrite Nat.sub_diag; reflexivity
      | reflexivity ].
Qed.

End TableMore.

(** * Further properties of the handlers *)

Section HandlerMore.

Context {World : Type} {P : Platform (World:=World)}.

Implicit Types (st : State (World:=World)) (s : Stream (World:=World))
  (rq : Request) (tbl : list (Inode (World:=World))).

(** *** What the handlers do to the table *)

Lemma File_call_inv {A : Type} p (m : Stream -> ext A) st st' a :
  File_call p m st = Ok (st', a) ->
  inodes st' = inodes st /\
  exists ni s, inodes st !! p = Some ni /\ File ni = Some s /\
               call (m s) st = (st', a).
Proof.
  unfold File_call, deref.
  destruct (inodes st !! p) as [ni|]; simpl; [|discriminate].
  destruct (File ni) as [s|] eqn:Hfile; [|discriminate].
  intros [= Hcall]. split; [|eauto].
  unfold call in Hcall. destruct (m s (mem st) (world st)) as [[m' wd'] a'].
  injection Hcall as <- _. reflexivity.
Qed.

Lemma sysRead_inodes p a n st st' r :
  sysRead p a n st = Ok (st', r) -> inodes st' = inodes st.
Proof.
  unfold sysRead.
  destruct (File_call _ _ _) as [[st1 [k e]]| |] eqn:Hcall; simpl;
    [|discriminate ..].
  apply File_call_inv in Hcall as [Hsame _].
  destruct (negb (k =? 0)); [intros [= <- _]; exact Hsame|].
  destruct e as [e|]; [destruct (is_EOF e)|]; intros [= <- _]; exact Hsame.
Qed.

Lemma sysWrite_inodes p a n st st' r :
  sysWrite p a n st = Ok (st', r) -> inodes st' = inodes st.
Proof.
  unfold sysWrite.
  destruct (File_call _ _ _) as [[st1 [k e]]| |] eqn:Hcall; simpl;
    [|discriminate ..].
  apply File_call_inv in Hcall as [Hsame _].
  destruct (negb (k =? 0)); intros [= <- _]; exact Hsame.
Qed.

Lemma sysStat_inodes p a st st' r :
  sysStat p a st = Ok (st', r) -> inodes st' = inodes st.
Proof.
  unfold sysStat. destruct (deref p st) as [ni| |]; simpl; [|discriminate ..].
  destruct (File ni ≫= as_aferoFile) as [file_Stat|];
    [|intros [= <- _]; reflexivity].
  unfold call. destruct (file_Stat _ _) as [[m wd] [info|err]];
    intros [= <- _]; reflexivity.
Qed.

Lemma sysIoctl_inodes p op arg st st' r :
  sysIoctl p op arg st = Ok (st', r) -> inodes st' = inodes st.
Proof.
  unfold sysIoctl. destruct (deref p st) as [ni| |]; simpl; [|discriminate ..].
  destruct (File ni ≫= as_Ioctler) as [ctl|];
    [|intros [= <- _]; reflexivity].
  unfold call. destruct (ctl op arg _ _) as [[m wd] e].
  intros [= <- _]. reflexivity.
Qed.

Lemma sysClose_inv p st st' err :
  sysClose p st = Ok (st', err) ->
  inodes st' = alter Release p (inodes st) /\
  exists ni s, inodes st !! p = Some ni /\ File ni = Some s /\
               Stream_Close s (mem st) (world st) = (mem st', world st', err).
Proof.
  unfold sysClose.
  destruct (File_call _ _ _) as [[st1 e]| |] eqn:Hcall; simpl;
    [|discriminate ..].
  apply File_call_inv in Hcall as (Hsame & ni & s & Hlook & Hfile & Hcall).
  intros [= <- <-]. simpl. rewrite Hsame. split; [reflexivity|].
  exists ni, s. split; [exact Hlook|]. split; [exact Hfile|].
  unfold call in Hcall.
  destruct (Stream_Close s (mem st) (world st)) as [[m wd] e'].
  injection Hcall as <- <-. reflexivity.
Qed.

Lemma sysOpen_inv fuel dirfd name flags perm st st' r :
  sysOpen fuel dirfd name flags perm st = Ok (st', r) ->
  exists path fd t1 m wd res,
    cstring fuel (mem st) name = Ok path /\
    AllocInode (inodes st) = (fd, t1) /\
    Root_OpenFile path (int_of_uintptr flags) perm (mem st) (world st)
      = (m, wd, res) /\
    mem st' = m /\ world st' = wd /\
    match res with
    | inl f => r = (fd, None) /\
               inodes st' = alter (set_File (Some (Other f))) (Z.to_nat fd) t1
    | inr err => r = (0, Some (if os_IsNotExist err then Errno ENOENT
                               else err)) /\
                 inodes st' = t1
    end.
Proof.
  unfold sysOpen.
  destruct (cstring fuel (mem st) name) as [path| |]; simpl;
    [|discriminate ..].
  destruct (AllocInode (inodes st)) as [fd t1]. unfold call. simpl.
  destruct (Root_OpenFile _ _ _ _ _) as [[m wd] res] eqn:Hopen.
  intros Hrun. exists path, fd, t1, m, wd, res.
  split; [reflexivity|]. split; [reflexivity|]. split; [exact Hopen|].
  destruct res as [f|err]; simpl in Hrun.
  - injection Hrun as <- <-. simpl. auto.
  - destruct (os_IsNotExist err); injection Hrun as <- <-; simpl; auto.
Qed.

Lemma fscall_switch_table fn p rq st st' rq' err :
  fscall_switch fn p rq st = Ok (st', rq', err) ->
  (fn = SYS_CLOSE /\ inodes st' = alter Release p (inodes st)) \/
  (fn <> SYS_CLOSE /\ inodes st' = inodes st).
Proof.
  unfold fscall_switch.
  destruct (Z.eqb_spec fn SYS_READ) as [->|_].
  { simpl. destruct (sysRead _ _ _ _) as [[st1 [n e]]| |] eqn:Hsys; simpl;
      [|discriminate ..].
    intros [= <- _ _]. right. split; [discriminate|].
    exact (sysRead_inodes _ _ _ _ _ _ Hsys). }
  destruct (Z.eqb_spec fn SYS_WRITE) as [->|_].
  { simpl. destruct (sysWrite _ _ _ _) as [[st1 [n e]]| |] eqn:Hsys; simpl;
      [|discriminate ..].
    intros [= <- _ _]. right. split; [discriminate|].
    exact (sysWrite_inodes _ _ _ _ _ _ Hsys). }
  destruct (Z.eqb_spec fn SYS_CLOSE) as [->|Hne].
  { destruct (sysClose _ _) as [[st1 e]| |] eqn:Hsys; simpl;
      [|discriminate ..].
    intros [= <- _ _]. left. split; [reflexivity|].
    exact (proj1 (sysClose_inv _ _ _ _ Hsys)). }
  destruct (fn =? SYS_FSTAT64).
  { simpl. destruct (sysStat _ _ _) as [[st1 e]| |] eqn:Hsys; simpl;
      [|discriminate ..].
    intros [= <- _ _]. right. split; [exact Hne|].
    exact (sysStat_inodes _ _ _ _ _ Hsys). }
  destruct (fn =? SYS_IOCTL).
  { simpl. destruct (sysIoctl _ _ _ _) as [[st1 e]| |] eqn:Hsys; simpl;
      [|discriminate ..].
    intros [= <- _ _]. right. split; [exact Hne|].
    exact (sysIoctl_inodes _ _ _ _ _ _ Hsys). }
  intros [= <- _ _]. right. split; [exact Hne | reflexivity].
Qed.

(** Every change a registered handler makes to the table is one of
    three: none, an allocation (with or without a stream bound to the
    new entry), the release of an entry in use. *)
Lemma handler_table fuel opcode h rq st st' rq' :
  registered fuel opcode = Some h ->
  h rq st = Ok (st', rq') ->
  (opcode = SYS_OPENAT /\
   exists fd t1, AllocInode (inodes st) = (fd, t1) /\
     (inodes st' = t1 \/
      exists f, inodes st' = alter (set_File (Some (Other f))) (Z.to_nat fd) t1))
  \/ (opcode = SYS_CLOSE /\
      exists p ni, inodes st !! p = Some ni /\ inuse ni = true /\
                   inodes st' = alter Release p (inodes st))
  \/ (inodes st' = inodes st /\
      (opcode = SYS_OPENAT -> False)).
Proof.
  intros Hreg Hrun.
  destruct (registered_cases _ _ _ Hreg)
    as [[Hop ->]|[[Hop ->]|[[-> ->]|[[-> ->]|[-> ->]]]]].
  - revert Hrun. unfold fscall.
    destruct (Z.eqb_spec opcode SYS_OPENAT) as [->|Hne].
    + simpl. destruct (sysOpen _ _ _ _ _ _) as [[st1 [fd e]]| |] eqn:Hsys;
        simpl; [|discriminate ..].
      intros Hrun. left. split; [reflexivity|].
      assert (Hst : st1 = st') by (destruct e; injection Hrun; auto).
      subst st1.
      destruct (sysOpen_inv _ _ _ _ _ _ _ _ Hsys)
        as (path & fd0 & t1 & m & wd & res & _ & Halloc & _ & _ & _ & Hres).
      exists fd0, t1. split; [exact Halloc|].
      destruct res as [f|err]; destruct Hres as [_ Htbl]; eauto.
    + simpl. destruct (GetInode _ _) as [[p|e]| |] eqn:Hget; simpl;
        [| intros [= <- _]; right; right; split; [reflexivity | exact Hne]
         | discriminate | discriminate].
      destruct (fscall_switch _ _ _ _) as [[[st1 rq1] err]| |] eqn:Hsw; simpl;
        [|discriminate ..].
      intros [= <- _].
      destruct (fscall_switch_table _ _ _ _ _ _ _ Hsw) as [[-> Htbl]|[_ Htbl]].
      * right. left. split; [reflexivity|].
        destruct (GetInode_found _ _ _ Hget) as (_ & _ & ni & Hlook & Hused).
        exists p, ni. auto.
      * right. right. split; [exact Htbl | exact Hne].
  - injection Hrun as <- _. right. right.
    split; [reflexivity|]. destruct Hop as [->| ->]; discriminate.
  - revert Hrun. unfold sysFstatat64. simpl.
    destruct (cstring _ _ _) as [name| |]; simpl; [|discriminate ..].
    unfold call. destruct (Root_Stat _ _ _) as [[m wd] [info|err]]; simpl.
    + intros [= <- _]. right. right. split; [reflexivity | discriminate].
    + destruct (os_IsNotExist err); intros [= <- _]; right; right;
        (split; [reflexivity | discriminate]).
  - injection Hrun as <- _. right. right. split; [reflexivity | discriminate].
  - revert Hrun. unfold sysRandom, call, rand_Read. simpl.
    destruct (rand_fill _ _ _ _) as [m wd]. intros [= <- _].
    right. right. split; [reflexivity | discriminate].
Qed.

Lemma AllocInode_slot tbl fd t1 :
  AllocInode tbl = (fd, t1) ->
  0 <= fd /\ (length tbl <= length t1 <= S (length tbl))%nat /\
  exists ni, t1 !! Z.to_nat fd = Some ni /\ inuse ni = true.
Proof.
  intros Halloc.
  destruct (AllocInode_cases tbl)
    as [(k & ni & Hk & Hlook & _ & _ & Heq)|[_ Heq]];
    rewrite Heq in Halloc; injection Halloc as <- <-; rewrite Nat2Z.id.
  - pose proof (lookup_lt_Some _ _ _ Hlook) as Hlt.
    split; [lia|]. split; [rewrite length_insert; lia|].
    eexists. split; [apply list_lookup_insert_eq; exact Hlt | reflexivity].
  - split; [lia|]. split; [rewrite length_app; simpl; lia|].
    exists {| File := None; Fd := Z.of_nat (length tbl); inuse := true |}.
    split; [|reflexivity].
    rewrite lookup_app_r by lia. rewrite Nat.sub_diag. reflexivity.
Qed.

(** X12. Only [openat] and [close] change the descriptor table: every
    other registered handler returns with the table it was given. *)
Theorem table_changed_only_by_open_close fuel opcode h rq st st' rq' :
  registered fuel opcode = Some h ->
  opcode <> SYS_OPENAT -> opcode <> SYS_CLOSE ->
  h rq st = Ok (st', rq') ->
  inodes st' = inodes st.
Proof.
  intros Hreg Hopen Hclose Hrun.
  destruct (handler_table _ _ _ _ _ _ _ Hreg Hrun)
    as [[Hop _]|[[Hop _]|[Hsame _]]]; [contradiction | contradiction|].
  exact Hsame.
Qed.

(** X11. The shape of the table is an invariant of the handlers: if
    every entry in use carries its own index as its handle and every
    other entry is a released one (handle [-1], no stream), the same
    holds after any registered handler has returned. *)
Theorem table_ok_preserved fuel opcode h rq st st' rq' :
  table_ok (inodes st) ->
  registered fuel opcode = Some h ->
  h rq st = Ok (st', rq') ->
  table_ok (inodes st').
Proof.
  intros Hok Hreg Hrun.
  destruct (handler_table _ _ _ _ _ _ _ Hreg Hrun)
    as [[_ (fd & t1 & Halloc & Hcase)]
       |[[_ (p & ni & _ & _ & Htbl)]|[Hsame _]]].
  - pose proof (table_ok_AllocInode _ Hok) as Hok1.
    rewrite Halloc in Hok1. simpl in Hok1.
    destruct Hcase as [->|[f ->]]; [exact Hok1|].
    destruct (AllocInode_slot _ _ _ Halloc) as (_ & _ & ni & Hlook & Hused).
    exact (table_ok_bind _ _ _ _ Hok1 Hlook Hused).
  - rewrite Htbl. apply table_ok_Release, Hok.
  - rewrite Hsame. exact Hok.
Qed.

(** X13. The table is append-only under the handlers: no handler
    shortens it, none lengthens it by more than one entry, and only
    [openat] lengthens it at all. *)
Theorem table_append_only fuel opcode h rq st st' rq' :
  registered fuel opcode = Some h ->
  h rq st = Ok (st', rq') ->
  (length (inodes st) <= length (inodes st') <= S (length (inodes st)))%nat /\
  (length (inodes st') <> length (inodes st) -> opcode = SYS_OPENAT).
Proof.
  intros Hreg Hrun.
  destruct (handler_table _ _ _ _ _ _ _ Hreg Hrun)
    as [[-> (fd & t1 & Halloc & Hcase)]
       |[[_ (p & ni & _ & _ & Htbl)]|[Hsame _]]].
  - destruct (AllocInode_slot _ _ _ Halloc) as (_ & Hlen & _).
    split; [|reflexivity].
    destruct Hcase as [->|[f ->]]; [|rewrite length_alter]; lia.
  - rewrite Htbl, length_alter. split; [lia | congruence].
  - rewrite Hsame. split; [lia | congruence].
Qed.

(** X10. Counting the entries in use: a returning [openat] raises the
    count by exactly one whether the open succeeded or failed; a
    returning [close] either leaves the table alone or lowers the count
    by exactly one; no other handler changes it. *)
Theorem inuse_count_step fuel opcode h rq st st' rq' :
  registered fuel opcode = Some h ->
  h rq st = Ok (st', rq') ->
  (opcode = SYS_OPENAT ->
     inuse_count (inodes st') = S (inuse_count (inodes st))) /\
  (opcode = SYS_CLOSE ->
     inodes st' = inodes st \/
     S (inuse_count (inodes st')) = inuse_count (inodes st)) /\
  (opcode <> SYS_OPENAT -> opcode <> SYS_CLOSE ->
     inuse_count (inodes st') = inuse_count (inodes st)).
Proof.
  intros Hreg Hrun.
  destruct (handler_table _ _ _ _ _ _ _ Hreg Hrun)
    as [[-> (fd & t1 & Halloc & Hcase)]
       |[[-> (p & ni & Hlook & Hused & Htbl)]|[Hsame Hne]]].
  - split; [|split; [discriminate | intros Hc; contradiction]].
    intros _. pose proof (AllocInode_inuse_count (inodes st)) as Hcount.
    rewrite Halloc in Hcount. simpl in Hcount.
    destruct Hcase as [->|[f ->]]; [exact Hcount|].
    rewrite inuse_count_alter_same by reflexivity. exact Hcount.
  - split; [discriminate|]. split; [|intros _ Hc; contradiction].
    intros _. right. rewrite Htbl.
    exact (inuse_count_alter_release _ _ _ Hlook Hused).
  - rewrite Hsame. split; [intros Hop; contradiction|].
    split; [left; reflexivity | reflexivity].
Qed.

(** *** Descriptors that do not resolve *)

Lemma fscall_GetInode_error fuel fn rq st e :
  fn <> SYS_OPENAT ->
  GetInode (int_of_uintptr (nth 0 (Args rq) 0)) (inodes st) = Ok (inr e) ->
  fscall fuel fn rq st =
    Ok (st, call_Done (set_Ret (isyscall_Error e) (snd (get_Arg 0 rq)))).
Proof.
  intros Hfn Hget. unfold fscall.
  destruct (Z.eqb_spec fn SYS_OPENAT); [contradiction|].
  simpl. rewrite Hget. reflexivity.
Qed.

Lemma GetInode_not_inuse tbl fd :
  0 <= fd ->
  (forall ni, tbl !! Z.to_nat fd = Some ni -> inuse ni = false) ->
  GetInode fd tbl = Ok (inr (Errno EBADF)).
Proof.
  intros Hfd Hfree.
  destruct (GetInode_runs tbl fd Hfd) as [Herr|(ni & _ & Hlook & Hused)];
    [exact Herr|].
  rewrite (Hfree ni Hlook) in Hused. discriminate.
Qed.

(** X6. A descriptor that does not resolve ends the call at once: for
    every opcode that [fscall] serves other than [openat], a
    non-negative handle with no slot or with a slot not in use gives the
    encoded [EBADF]; the state is left as it was, and of the request
    only [Args[0]] was read before the result was set and the request
    completed. *)
Theorem bad_descriptor_short_circuit fuel fn rq st :
  let fd := int_of_uintptr (nth 0 (Args rq) 0) in
  fn <> SYS_OPENAT -> 0 <= fd ->
  (forall ni, inodes st !! Z.to_nat fd = Some ni -> inuse ni = false) ->
  fscall fuel fn rq st =
    Ok (st, {| Args := Args rq;
               Ret := isyscall_Error (Errno EBADF);
               events := events rq ++
                 [GetArg 0; SetRet (isyscall_Error (Errno EBADF)); Done] |}).
Proof.
  intros fd Hfn Hfd Hfree.
  rewrite (fscall_GetInode_error fuel fn rq st (Errno EBADF) Hfn
             (GetInode_not_inuse _ _ Hfd Hfree)).
  unfold call_Done, set_Ret, get_Arg. simpl.
  rewrite <- !app_assoc. reflexivity.
Qed.


(** *** Open *)

Lemma uintptr_of_int_small i : 0 <= i < 2 ^ 32 -> uintptr_of_int i = i.
Proof.
  intros Hi. unfold uintptr_of_int, word_modulus. apply Z.mod_small. lia.
Qed.

(** X8. A successful open binds the file: when the path is read and
    the root file system returns a file, the request's result is the
    handle [AllocInode] chose, that handle read back as an [int] is open
    on exactly the returned file, and memory and world are as the root
    file system left them. *)
Theorem open_binds_file fuel rq st path f m wd :
  cstring fuel (mem st) (nth 1 (Args rq) 0) = Ok path ->
  Root_OpenFile path (int_of_uintptr (nth 2 (Args rq) 0)) (nth 3 (Args rq) 0)
                (mem st) (world st) = (m, wd, inl f) ->
  Z.of_nat (length (inodes st)) < 2 ^ 31 ->
  exists st' rq',
    fscall fuel SYS_OPENAT rq st = Ok (st', rq') /\
    Ret rq' = fst (AllocInode (inodes st)) /\
    open_on st' (int_of_uintptr (Ret rq')) (Other f) /\
    mem st' = m /\ world st' = wd.
Proof.
  intros Hpath Hopen Hlen.
  destruct (AllocInode (inodes st)) as [fd t1] eqn:Halloc.
  destruct (AllocInode_slot _ _ _ Halloc) as (Hfd & Hgrow & ni & Hlook & Hused).
  assert (Hlt : fd < 2 ^ 31).
  { apply lookup_lt_Some in Hlook. lia. }
  assert (Hsys : sysOpen fuel (nth 0 (Args rq) 0) (nth 1 (Args rq) 0)
                   (nth 2 (Args rq) 0) (nth 3 (Args rq) 0) st
                 = Ok ({| inodes := alter (set_File (Some (Other f)))
                                          (Z.to_nat fd) t1;
                          mem := m; world := wd |}, (fd, None))).
  { unfold sysOpen. rewrite Hpath. simpl. rewrite Halloc.
    unfold call. simpl. rewrite Hopen. reflexivity. }
  eexists _, _. split.
  { unfold fscall. simpl. rewrite Hsys. reflexivity. }
  simpl. rewrite uintptr_of_int_small by lia.
  split; [reflexivity|]. split; [|split; reflexivity].
  rewrite int_of_uintptr_small by lia.
  split; [lia|]. exists (set_File (Some (Other f)) ni). split.
  { cbn [inodes]. rewrite list_lookup_alter_eq, Hlook. reflexivity. }
  simpl. auto.
Qed.

(** X9. A failed open reports the file system's error: [ENOENT] when
    the error says the path does not exist, the error itself otherwise;
    the encoded error is the request's only result and the request is
    completed. *)
Theorem open_error_encoding fuel rq st path m wd err :
  cstring fuel (mem st) (nth 1 (Args rq) 0) = Ok path ->
  Root_OpenFile path (int_of_uintptr (nth 2 (Args rq) 0)) (nth 3 (Args rq) 0)
                (mem st) (world st) = (m, wd, inr err) ->
  let code := isyscall_Error (if os_IsNotExist err then Errno ENOENT
                              else err) in
  exists st' rq',
    fscall fuel SYS_OPENAT rq st = Ok (st', rq') /\
    Ret rq' = code /\
    events rq' = events rq ++
      [GetArg 0; GetArg 1; GetArg 2; GetArg 3; SetRet code; Done] /\
    mem st' = m /\ world st' = wd.
Proof.
  intros Hpath Hopen code.
  eexists _, _. split.
  { unfold fscall. simpl.
    rewrite (sysOpen_failure fuel _ _ _ _ st path m wd err Hpath Hopen).
    reflexivity. }
  simpl. split; [reflexivity|]. split; [|split; reflexivity].
  rewrite <- !app_assoc. reflexivity.
Qed.

(** *** Close, ioctl, fstat *)

(** X15. Closing a descriptor whose stream was built by [NewFile]
    without a closer reports [EINVAL] and still releases the entry;
    memory and world are untouched. *)
Theorem close_without_closer fuel rq st fd rd wr :
  nth 0 (Args rq) 0 = fd -> open_on st fd (NewFile rd wr None) ->
  exists rq',
    fscall fuel SYS_CLOSE rq st
      = Ok (with_inodes (alter Release (Z.to_nat fd) (inodes st)) st, rq') /\
    Ret rq' = isyscall_Error (Errno EINVAL) /\
    GetInode fd (alter Release (Z.to_nat fd) (inodes st))
      = Ok (inr (Errno EBADF)).
Proof.
  intros Harg Hopen.
  assert (Hsys : sysClose (Z.to_nat fd) st =
                 Ok (with_inodes (alter Release (Z.to_nat fd) (inodes st)) st,
                     Some (Errno EINVAL))).
  { unfold sysClose. rewrite (File_call_open _ _ _ _ Hopen). reflexivity. }
  eexists. split.
  { rewrite (fscall_resolved fuel SYS_CLOSE rq st fd _ ltac:(discriminate)
               Harg Hopen).
    unfold fscall_switch. simpl. rewrite Hsys. reflexivity. }
  split; [reflexivity|].
  destruct Hopen as [Hfd (ni & Hlook & _ & _)].
  apply GetInode_not_inuse; [lia|].
  intros ni' Hni'. rewrite list_lookup_alter_eq, Hlook in Hni'.
  injection Hni' as <-. reflexivity.
Qed.

(** X16. An ioctl on a descriptor whose stream has the capability is
    forwarded as it is: the operation and its argument reach the
    stream's ioctl unchanged, the stream's effects on memory and world
    are kept, and its error, if any, is the call's error.  On success
    the handler does not set the request's result. *)
Theorem ioctl_forwarded fuel rq st fd s ctl m wd err :
  nth 0 (Args rq) 0 = fd -> open_on st fd s ->
  ioctl_capability s = Some ctl ->
  ctl (nth 1 (Args rq) 0) (nth 2 (Args rq) 0) (mem st) (world st)
    = (m, wd, err) ->
  let st' := with_ext (m, wd) st in
  sysIoctl (Z.to_nat fd) (nth 1 (Args rq) 0) (nth 2 (Args rq) 0) st
    = Ok (st', err) /\
  exists rq',
    fscall fuel SYS_IOCTL rq st = Ok (st', rq') /\
    Ret rq' = match err with
              | Some e => isyscall_Error e
              | None => Ret rq
              end.
Proof.
  intros Harg Hopen Hcap Hctl st'.
  destruct (deref_open _ _ _ Hopen) as (ni & Hderef & Hfile).
  assert (Hsys : sysIoctl (Z.to_nat fd) (nth 1 (Args rq) 0)
                   (nth 2 (Args rq) 0) st = Ok (st', err)).
  { unfold sysIoctl. rewrite Hderef. simpl. rewrite Hfile. simpl.
    destruct s as [h|f]; simpl in *.
    - unfold call, fileHelper_Ioctl. rewrite Hcap, Hctl. reflexivity.
    - rewrite Hcap. unfold call. rewrite Hctl. reflexivity. }
  split; [exact Hsys|]. eexists. split.
  { rewrite (fscall_resolved fuel SYS_IOCTL rq st fd s ltac:(discriminate)
               Harg Hopen).
    unfold fscall_switch. simpl. rewrite Hsys. reflexivity. }
  destruct err; reflexivity.
Qed.






(** *** Read and write *)

(** X21. A read or a write that reports an error has moved nothing:
    whenever [sysRead] or [sysWrite] returns an error, the count it
    returns with it is [0]; and the error of a read is never the
    end-of-stream condition. *)
Theorem transfer_error_means_nothing_moved p a n st st' k e :
  (sysRead p a n st = Ok (st', (k, Some e)) -> k = 0 /\ is_EOF e = false) /\
  (sysWrite p a n st = Ok (st', (k, Some e)) -> k = 0).
Proof.
  split.
  - unfold sysRead.
    destruct (File_call _ _ _) as [[st1 [k1 e1]]| |]; simpl; [|discriminate ..].
    destruct (negb (k1 =? 0)); [discriminate|].
    destruct e1 as [e1|]; [|discriminate].
    destruct (is_EOF e1) eqn:Heof; [discriminate|].
    intros [= _ <- <-]. auto.
  - unfold sysWrite.
    destruct (File_call _ _ _) as [[st1 [k1 e1]]| |]; simpl; [|discriminate ..].
    destruct (negb (k1 =? 0)); [discriminate|].
    intros [= _ <- _]. reflexivity.
Qed.

(** *** Random fill *)



End HandlerMore.

(** * Further properties of memory views and paths *)

Lemma store_bytes_stat_at m p bs :
  stat_at (store_bytes m p bs) = stat_at m.
Proof.
  revert m p. induction bs as [|b bs IH]; intros m p; simpl; [reflexivity|].
  rewrite IH. reflexivity.
Qed.

Lemma store_bytes_outside m p bs q :
  q < p \/ p + Z.of_nat (length bs) <= q ->
  bytes (store_bytes m p bs) q = bytes m q.
Proof.
  revert m p. induction bs as [|b bs IH]; intros m p Hq; simpl; [reflexivity|].
  simpl in Hq. rewrite IH by lia. simpl.
  destruct (Z.eqb_spec q p); [lia | reflexivity].
Qed.

Lemma store_bytes_at m p bs i :
  (i < length bs)%nat ->
  bytes (store_bytes m p bs) (p + Z.of_nat i) = nth i bs 0.
Proof.
  revert m p i. induction bs as [|b bs IH]; intros m p i Hi; simpl in *; [lia|].
  destruct i as [|i].
  - rewrite store_bytes_outside by lia. simpl.
    rewrite Z.add_0_r, Z.eqb_refl. reflexivity.
  - replace (p + Z.of_nat (S i)) with (p + 1 + Z.of_nat i) by lia.
    apply IH. lia.
Qed.

Lemma map_nth_seq (bs : list Z) :
  map (fun i => nth i bs 0) (seq 0 (length bs)) = bs.
Proof.
  induction bs as [|b bs IH]; simpl; [reflexivity|].
  f_equal. rewrite <- seq_shift, map_map. exact IH.
Qed.

(** Bytes stored at an address are the bytes a view of them shows. *)
Lemma slice_bytes_store m p bs rest :
  slice_bytes (store_bytes m p (bs ++ rest))
              (UnsafeBuffer p (Z.of_nat (length bs))) = bs.
Proof.
  unfold slice_bytes. simpl. rewrite Nat2Z.id.
  rewrite <- (map_nth_seq bs) at 2.
  apply map_ext_in. intros i Hi. apply in_seq in Hi.
  rewrite store_bytes_at by (rewrite length_app; lia).
  apply app_nth1. lia.
Qed.

Lemma slice_bytes_outside m p bs sl :
  0 <= Len sl ->
  Data sl + Len sl <= p \/ p + Z.of_nat (length bs) <= Data sl ->
  slice_bytes (store_bytes m p bs) sl = slice_bytes m sl.
Proof.
  intros Hlen Hdisj. unfold slice_bytes.
  apply map_ext_in. intros i Hi. apply in_seq in Hi.
  apply store_bytes_outside. lia.
Qed.

Lemma string_of_bytes_of_string s : string_of_bytes (bytes_of_string s) = s.
Proof.
  unfold string_of_bytes, bytes_of_string. rewrite map_map.
  rewrite <- (string_of_list_ascii_of_string s) at 2. f_equal.
  rewrite <- (map_id (list_ascii_of_string s)) at 2.
  apply map_ext. intros a. rewrite N2Z.id. apply ascii_N_embedding.
Qed.

Lemma length_bytes_of_string s :
  length (bytes_of_string s) = String.length s.
Proof.
  unfold bytes_of_string. rewrite length_map.
  induction s as [|a s IH]; simpl; [reflexivity | rewrite IH; reflexivity].
Qed.

Lemma length_string_of_bytes bs :
  String.length (string_of_bytes bs) = length bs.
Proof.
  unfold string_of_bytes.
  induction bs as [|b bs IH]; simpl; [reflexivity | rewrite IH; reflexivity].
Qed.

Lemma cstring_len_found fuel m p n0 k :
  (forall i, (i < k)%nat -> bytes m (p + Z.of_nat i) <> 0) ->
  bytes m (p + Z.of_nat k) = 0 ->
  (k < fuel)%nat ->
  cstring_len fuel m p n0 = Ok (n0 + Z.of_nat k).
Proof.
  revert p n0 k. induction fuel as [|fuel IH]; intros p n0 k Hpre Hzero Hk;
    [lia|].
  simpl. destruct k as [|k].
  - simpl in Hzero. rewrite Z.add_0_r in Hzero. rewrite Hzero. simpl.
    f_equal. lia.
  - pose proof (Hpre 0%nat ltac:(lia)) as H0. simpl in H0.
    rewrite Z.add_0_r in H0.
    destruct (Z.eqb_spec (bytes m p) 0); [contradiction|].
    rewrite (IH (p + 1) (n0 + 1) k); [f_equal; lia | | | lia].
    + intros i Hi. specialize (Hpre (S i) ltac:(lia)).
      replace (p + 1 + Z.of_nat i) with (p + Z.of_nat (S i)) by lia.
      exact Hpre.
    + replace (p + 1 + Z.of_nat k) with (p + Z.of_nat (S k)) by lia.
      exact Hzero.
Qed.

Lemma cstring_len_exhausted fuel m p n0 :
  (forall i, (i < fuel)%nat -> bytes m (p + Z.of_nat i) <> 0) ->
  cstring_len fuel m p n0 = OutOfFuel.
Proof.
  revert p n0. induction fuel as [|fuel IH]; intros p n0 Hpre; [reflexivity|].
  simpl. pose proof (Hpre 0%nat ltac:(lia)) as H0. simpl in H0.
  rewrite Z.add_0_r in H0.
  destruct (Z.eqb_spec (bytes m p) 0); [contradiction|].
  apply IH. intros i Hi. specialize (Hpre (S i) ltac:(lia)).
  replace (p + 1 + Z.of_nat i) with (p + Z.of_nat (S i)) by lia.
  exact Hpre.
Qed.

(** X19. [cstring] stops at the first zero byte: when the [k] bytes
    from [ptr] are non-zero and the next one is zero, every fuel above
    [k] gives the string of exactly these [k] bytes (the empty string
    for [k = 0]), and the result does not depend on the fuel; with fuel
    [k] or less the scan does not finish. *)
Theorem cstring_stops_at_first_zero fuel m ptr k :
  (forall i, (i < k)%nat -> bytes m (ptr + Z.of_nat i) <> 0) ->
  bytes m (ptr + Z.of_nat k) = 0 ->
  ((k < fuel)%nat ->
     cstring fuel m ptr
       = Ok (string_of_bytes (slice_bytes m (UnsafeBuffer ptr (Z.of_nat k)))) /\
     String.length
       (string_of_bytes (slice_bytes m (UnsafeBuffer ptr (Z.of_nat k)))) = k) /\
  ((fuel <= k)%nat -> cstring fuel m ptr = OutOfFuel).
Proof.
  intros Hpre Hzero. split.
  - intros Hk. split.
    + unfold cstring.
      rewrite (cstring_len_found fuel m ptr 0 k Hpre Hzero Hk). reflexivity.
    + rewrite length_string_of_bytes. unfold slice_bytes. simpl.
      rewrite length_map, length_seq. apply Nat2Z.id.
  - intros Hk. unfold cstring.
    rewrite (cstring_len_exhausted fuel m ptr 0); [reflexivity|].
    intros i Hi. apply Hpre. lia.
Qed.

(** X20. A path written to memory is the path [cstring] reads: after
    the bytes of a string without a zero byte, followed by a zero byte,
    are stored at an address, [cstring] at that address returns the
    string, for every fuel above its length. *)
Theorem cstring_reads_back fuel m p s :
  Forall (fun b => b <> 0) (bytes_of_string s) ->
  (String.length s < fuel)%nat ->
  cstring fuel (store_bytes m p (bytes_of_string s ++ [0])) p = Ok s.
Proof.
  intros Hnz Hfuel.
  set (bs := bytes_of_string s) in *.
  set (m' := store_bytes m p (bs ++ [0])).
  assert (Hlen : length bs = String.length s)
    by apply length_bytes_of_string.
  assert (Hpre : forall i, (i < length bs)%nat ->
                           bytes m' (p + Z.of_nat i) <> 0).
  { intros i Hi. unfold m'.
    rewrite store_bytes_at by (rewrite length_app; lia).
    rewrite app_nth1 by lia.
    rewrite Forall_forall in Hnz. apply Hnz, list_elem_of_In, nth_In.
    exact Hi. }
  assert (Hzero : bytes m' (p + Z.of_nat (length bs)) = 0).
  { unfold m'. rewrite store_bytes_at by (rewrite length_app; simpl; lia).
    rewrite app_nth2 by lia. rewrite Nat.sub_diag. reflexivity. }
  unfold cstring.
  rewrite (cstring_len_found fuel m' p 0 (length bs) Hpre Hzero) by lia.
  simpl. unfold m'. rewrite slice_bytes_store.
  unfold bs. rewrite string_of_bytes_of_string. reflexivity.
Qed.

Lemma slice_bytes_store_len m p bs n :
  n = Z.of_nat (length bs) ->
  slice_bytes (store_bytes m p bs) (UnsafeBuffer p n) = bs.
Proof.
  intros ->. rewrite <- (app_nil_r bs) at 1. apply slice_bytes_store.
Qed.

(** * Further properties of the directly registered handlers and of boot *)

Section BootMore.

Context {World : Type} {P : Platform (World:=World)}.

Implicit Types (st : State (World:=World)) (rq : Request).

(** Evaluate the constant strings of [sysUname]. *)
Ltac uname_constants :=
  unfold copy_field, Utsname_Sysname, Utsname_Nodename, Utsname_Release,
    Utsname_Version, Utsname_Machine, Utsname_Domainname;
  repeat match goal with
         | |- context [take 65 (bytes_of_string ?s)] =>
             let v := eval vm_compute in (take 65 (bytes_of_string s)) in
             change (take 65 (bytes_of_string s)) with v
         end.

Ltac uname_field :=
  repeat (rewrite slice_bytes_outside by (simpl; lia));
  rewrite slice_bytes_store_len by reflexivity;
  reflexivity.

(** X23. [uname] writes the six constant names and nothing else: each
    field starts with the bytes of its name, every byte outside these
    six runs is as before (the bytes after a name inside its field
    included: no terminator is written), table and world are untouched,
    and the result is [0]. *)
Theorem uname_fields rq st :
  let buf := nth 0 (Args rq) 0 in
  exists st' rq',
    sysUname rq st = Ok (st', rq') /\
    Ret rq' = 0 /\ inodes st' = inodes st /\ world st' = world st /\
    (let field off n :=
       string_of_bytes (slice_bytes (mem st') (UnsafeBuffer (buf + off) n)) in
     field Utsname_Sysname 5 = "eggos"%string /\
     field Utsname_Nodename 12 = "icexin.local"%string /\
     field Utsname_Release 1 = "0"%string /\
     field Utsname_Version 1 = "0"%string /\
     field Utsname_Machine 6 = "x86_32"%string /\
     field Utsname_Domainname 10 = "icexin.com"%string) /\
    (forall q,
       (q < buf + Utsname_Sysname \/ buf + Utsname_Sysname + 5 <= q) ->
       (q < buf + Utsname_Nodename \/ buf + Utsname_Nodename + 12 <= q) ->
       (q < buf + Utsname_Release \/ buf + Utsname_Release + 1 <= q) ->
       (q < buf + Utsname_Version \/ buf + Utsname_Version + 1 <= q) ->
       (q < buf + Utsname_Machine \/ buf + Utsname_Machine + 6 <= q) ->
       (q < buf + Utsname_Domainname \/ buf + Utsname_Domainname + 10 <= q) ->
       bytes (mem st') q = bytes (mem st) q).
Proof.
  intros buf.
  set (m' := copy_field buf Utsname_Version "0"
               (copy_field buf Utsname_Sysname "eggos"
                  (copy_field buf Utsname_Release "0"
                     (copy_field buf Utsname_Nodename "icexin.local"
                        (copy_field buf Utsname_Domainname "icexin.com"
                           (copy_field buf Utsname_Machine "x86_32"
                              (mem st))))))).
  exists (with_mem m' st), (call_Done (set_Ret 0 (snd (get_Arg 0 rq)))).
  split; [reflexivity|].
  split; [reflexivity|]. split; [reflexivity|]. split; [reflexivity|].
  change (mem (with_mem m' st)) with m'. unfold m'.
  uname_constants. split.
  - repeat split.
    + uname_field.
    + uname_field.
    + uname_field.
    + uname_field.
    + uname_field.
    + uname_field.
  - intros q H1 H2 H3 H4 H5 H6.
    rewrite !store_bytes_outside by (simpl; lia). reflexivity.
Qed.

(** X14. Boot: from the empty table, [vfsInit] produces exactly four
    entries, with the handles 0 to 3, all in use: the console's read end
    alone on 0, its write end alone on 1 and on 2, a stream with nothing
    wired on 3, none of them with a closer.  The table has the shape
    [table_ok], the next handle an allocation returns is 4, and memory
    and world are what [etcInit] made of them. *)
Theorem vfsInit_boot_table st :
  inodes st = [] ->
  inodes (vfsInit st) =
    [ {| File := Some (NewFile (Some console_Reader) None None);
         Fd := 0; inuse := true |};
      {| File := Some (NewFile None (Some console_Writer) None);
         Fd := 1; inuse := true |};
      {| File := Some (NewFile None (Some console_Writer) None);
         Fd := 2; inuse := true |};
      {| File := Some (NewFile None None None); Fd := 3; inuse := true |} ] /\
  table_ok (inodes (vfsInit st)) /\
  fst (AllocInode (inodes (vfsInit st))) = 4 /\
  (mem (vfsInit st), world (vfsInit st))
    = fst (etcInit (mem st) (world st)).
Proof.
  intros Hempty.
  assert (Htbl : inodes (vfsInit st) =
    [ {| File := Some (NewFile (Some console_Reader) None None);
         Fd := 0; inuse := true |};
      {| File := Some (NewFile None (Some console_Writer) None);
         Fd := 1; inuse := true |};
      {| File := Some (NewFile None (Some console_Writer) None);
         Fd := 2; inuse := true |};
      {| File := Some (NewFile None None None); Fd := 3; inuse := true |} ]).
  { unfold vfsInit, call. simpl. rewrite Hempty.
    destruct (etcInit (mem st) (world st)) as [[m wd] u]. reflexivity. }
  split; [exact Htbl|]. split; [|split].
  - rewrite Htbl. intros i ni Hi.
    do 4 (destruct i as [|i]; [injection Hi as <-; reflexivity|]).
    discriminate Hi.
  - rewrite Htbl. reflexivity.
  - unfold vfsInit, call. simpl.
    destruct (etcInit (mem st) (world st)) as [[m wd] u]. reflexivity.
Qed.

End BootMore.

(** * The further properties at concrete inputs *)

Lemma sample_boot_table_ok : table_ok (inodes sample_boot).
Proof.
  intros i ni Hi.
  do 4 (destruct i as [|i]; [injection Hi as <-; reflexivity|]).
  discriminate Hi.
Qed.

Lemma sample_run_open :
  fscall 16 SYS_OPENAT (sample_request [0; 200; 0; 0]) sample_boot
    = Ok (sample_opened,
          {| Args := [0; 200; 0; 0]; Ret := 4;
             events := [GetArg 0; GetArg 1; GetArg 2; GetArg 3;
                        SetRet 4; Done] |}).
Proof. reflexivity. Qed.

Lemma sample_run_write :
  fscall 16 SYS_WRITE (sample_request [1; 300; 2]) sample_boot
    = Ok (sample_boot,
          {| Args := [1; 300; 2]; Ret := 2;
             events := [GetArg 0; GetArg 1; GetArg 2; SetRet 2; Done] |}).
Proof. reflexivity. Qed.

Lemma sample_run_close :
  fscall 16 SYS_CLOSE (sample_request [4]) sample_opened
    = Ok (with_inodes (alter Release 4%nat (inodes sample_opened)) sample_opened,
          {| Args := [4]; Ret := sample_Error (OtherError "close failed");
             events := [GetArg 0;
                        SetRet (sample_Error (OtherError "close failed"));
                        Done] |}).
Proof. reflexivity. Qed.

(** Boot table with descriptor 2 released: the allocation reuses slot 2
    and touches no other slot. *)
Lemma AllocInode_post_witness :
  let tbl := alter Release 2%nat (inodes sample_boot) in
  let tbl' := <[2%nat := {| File := None; Fd := 2; inuse := true |}]> tbl in
  AllocInode tbl = (2, tbl') /\
  0 <= 2 <= Z.of_nat (length tbl) /\
  (forall j, j <> 2%nat -> (j < length tbl)%nat -> tbl' !! j = tbl !! j).
Proof.
  intros tbl tbl'.
  assert (Halloc : AllocInode tbl = (2, tbl')) by reflexivity.
  destruct (AllocInode_post tbl 2 tbl' Halloc) as (Hrange & _ & Hframe).
  split; [exact Halloc|]. split; [exact Hrange | exact Hframe].
Defined.

(** Boot table with descriptor 0 released: three allocations give seven
    entries, the first four unchanged. *)
Lemma slot0_free_never_reused_witness :
  let tbl := alter Release 0%nat (inodes sample_boot) in
  tbl !! 0%nat = Some released_Inode /\
  inuse (released_Inode (World:=Z)) = false /\
  length (alloc_n 3 tbl) = 7%nat /\
  take 4 (alloc_n 3 tbl) = tbl.
Proof.
  intros tbl.
  assert (H0 : tbl !! 0%nat = Some released_Inode) by reflexivity.
  assert (Hfree : inuse (released_Inode (World:=Z)) = false) by reflexivity.
  destruct (slot0_free_never_reused tbl released_Inode 3 H0 Hfree)
    as (Hlen & Htake & _).
  split; [exact H0|]. split; [exact Hfree|].
  split; [exact Hlen | exact Htake].
Defined.

(** The sample file allocated after boot is found under handle 4. *)
Lemma AllocFileNode_then_GetInode_witness :
  AllocFileNode (Other sample_file) (inodes sample_boot)
    = (4, inodes sample_opened) /\
  GetInode 4 (inodes sample_opened) = Ok (inl 4%nat) /\
  inodes sample_opened !! 4%nat
    = Some {| File := Some (Other sample_file); Fd := 4; inuse := true |}.
Proof.
  assert (Halloc : AllocFileNode (Other sample_file) (inodes sample_boot)
                   = (4, inodes sample_opened)) by reflexivity.
  destruct (AllocFileNode_then_GetInode _ _ _ _ Halloc) as [Hget Hlook].
  split; [exact Halloc|]. split; [exact Hget | exact Hlook].
Defined.

(** A read on handle 9 after boot. *)
Lemma bad_descriptor_short_circuit_witness :
  let rq := sample_request [9; 300; 4] in
  SYS_READ <> SYS_OPENAT /\
  0 <= int_of_uintptr (nth 0 (Args rq) 0) /\
  (forall ni, inodes sample_boot !! Z.to_nat (int_of_uintptr (nth 0 (Args rq) 0))
                = Some ni -> inuse ni = false) /\
  fscall 16 SYS_READ rq sample_boot =
    Ok (sample_boot,
        {| Args := [9; 300; 4]; Ret := sample_Error (Errno EBADF);
           events := [GetArg 0; SetRet (sample_Error (Errno EBADF)); Done] |}).
Proof.
  intros rq.
  assert (Hfn : SYS_READ <> SYS_OPENAT) by discriminate.
  assert (Hfd : 0 <= int_of_uintptr (nth 0 (Args rq) 0)) by discriminate.
  assert (Hfree : forall ni,
            inodes sample_boot !! Z.to_nat (int_of_uintptr (nth 0 (Args rq) 0))
              = Some ni -> inuse ni = false)
    by (intros ni Hni; discriminate Hni).
  split; [exact Hfn|]. split; [exact Hfd|]. split; [exact Hfree|].
  exact (bad_descriptor_short_circuit 16 SYS_READ rq sample_boot Hfn Hfd Hfree).
Defined.


(** Boot, then open of the one file of the sample root. *)
Lemma open_binds_file_witness :
  let rq := sample_request [0; 200; 0; 0] in
  cstring 16 (mem sample_boot) (nth 1 (Args rq) 0) = Ok "/etc/hosts"%string /\
  Z.of_nat (length (inodes sample_boot)) < 2 ^ 31 /\
  exists st' rq',
    fscall 16 SYS_OPENAT rq sample_boot = Ok (st', rq') /\
    Ret rq' = 4 /\
    open_on st' (int_of_uintptr (Ret rq')) (Other sample_file).
Proof.
  intros rq.
  assert (Hpath : cstring 16 (mem sample_boot) (nth 1 (Args rq) 0)
                  = Ok "/etc/hosts"%string) by reflexivity.
  assert (Hlen : Z.of_nat (length (inodes sample_boot)) < 2 ^ 31)
    by reflexivity.
  assert (Hopen' : Root_OpenFile "/etc/hosts"
                     (int_of_uintptr (nth 2 (Args rq) 0)) (nth 3 (Args rq) 0)
                     (mem sample_boot) (world sample_boot)
                   = (mem sample_boot, world sample_boot, inl sample_file))
    by reflexivity.
  destruct (open_binds_file 16 rq sample_boot "/etc/hosts" sample_file
              (mem sample_boot) (world sample_boot) Hpath Hopen' Hlen)
    as (st' & rq' & Hrun & Hret & Hopen & _).
  split; [exact Hpath|]. split; [exact Hlen|].
  exists st', rq'. split; [exact Hrun|]. split; [exact Hret | exact Hopen].
Defined.

(** Boot, then open of a path the sample root does not have. *)
Lemma open_error_encoding_witness :
  let rq := sample_request [0; 100; 0; 0] in
  cstring 16 (mem sample_boot) (nth 1 (Args rq) 0) = Ok "/missing"%string /\
  exists st' rq',
    fscall 16 SYS_OPENAT rq sample_boot = Ok (st', rq') /\
    Ret rq' = sample_Error (Errno ENOENT).
Proof.
  intros rq.
  assert (Hpath : cstring 16 (mem sample_boot) (nth 1 (Args rq) 0)
                  = Ok "/missing"%string) by reflexivity.
  assert (Hopen : Root_OpenFile "/missing"
                    (int_of_uintptr (nth 2 (Args rq) 0)) (nth 3 (Args rq) 0)
                    (mem sample_boot) (world sample_boot)
                  = (mem sample_boot, world sample_boot,
                     inr (PathError "open" "/missing" ErrNotExist)))
    by reflexivity.
  destruct (open_error_encoding 16 rq sample_boot "/missing"
              (mem sample_boot) (world sample_boot)
              (PathError "open" "/missing" ErrNotExist) Hpath Hopen)
    as (st' & rq' & Hrun & Hret & _).
  split; [exact Hpath|]. exists st', rq'. split; [exact Hrun | exact Hret].
Defined.

(** The open after boot raises the count from 4 to 5; the close of the
    opened file lowers it again. *)
Lemma inuse_count_step_witness :
  registered 16 SYS_OPENAT = Some (fscall 16 SYS_OPENAT) /\
  registered 16 SYS_CLOSE = Some (fscall 16 SYS_CLOSE) /\
  inuse_count (inodes sample_opened) = S (inuse_count (inodes sample_boot)) /\
  (inodes (with_inodes (alter Release 4%nat (inodes sample_opened))
                       sample_opened) = inodes sample_opened \/
   S (inuse_count (inodes (with_inodes (alter Release 4%nat
                                          (inodes sample_opened))
                                       sample_opened)))
     = inuse_count (inodes sample_opened)).
Proof.
  assert (Hro : registered 16 SYS_OPENAT = Some (fscall 16 SYS_OPENAT))
    by reflexivity.
  assert (Hrc : registered 16 SYS_CLOSE = Some (fscall 16 SYS_CLOSE))
    by reflexivity.
  destruct (inuse_count_step 16 SYS_OPENAT _ _ _ _ _ Hro sample_run_open)
    as (Hopen & _ & _).
  destruct (inuse_count_step 16 SYS_CLOSE _ _ _ _ _ Hrc sample_run_close)
    as (_ & Hclose & _).
  split; [exact Hro|]. split; [exact Hrc|].
  split; [exact (Hopen eq_refl) | exact (Hclose eq_refl)].
Defined.

(** The boot table has the shape, and keeps it over the open. *)
Lemma table_ok_preserved_witness :
  table_ok (inodes sample_boot) /\
  registered 16 SYS_OPENAT = Some (fscall 16 SYS_OPENAT) /\
  table_ok (inodes sample_opened).
Proof.
  assert (Hro : registered 16 SYS_OPENAT = Some (fscall 16 SYS_OPENAT))
    by reflexivity.
  split; [exact sample_boot_table_ok|]. split; [exact Hro|].
  exact (table_ok_preserved 16 SYS_OPENAT _ _ _ _ _
           sample_boot_table_ok Hro sample_run_open).
Defined.

(** A write after boot leaves the table alone. *)
Lemma table_changed_only_by_open_close_witness :
  registered 16 SYS_WRITE = Some (fscall 16 SYS_WRITE) /\
  SYS_WRITE <> SYS_OPENAT /\ SYS_WRITE <> SYS_CLOSE /\
  inodes sample_boot = inodes sample_boot.
Proof.
  assert (Hrw : registered 16 SYS_WRITE = Some (fscall 16 SYS_WRITE))
    by reflexivity.
  assert (H1 : SYS_WRITE <> SYS_OPENAT) by discriminate.
  assert (H2 : SYS_WRITE <> SYS_CLOSE) by discriminate.
  split; [exact Hrw|]. split; [exact H1|]. split; [exact H2|].
  exact (table_changed_only_by_open_close 16 SYS_WRITE _ _ _ _ _
           Hrw H1 H2 sample_run_write).
Defined.

(** The open after boot lengthens the table from 4 to 5. *)
Lemma table_append_only_witness :
  registered 16 SYS_OPENAT = Some (fscall 16 SYS_OPENAT) /\
  (length (inodes sample_boot) <= length (inodes sample_opened)
   <= S (length (inodes sample_boot)))%nat.
Proof.
  assert (Hro : registered 16 SYS_OPENAT = Some (fscall 16 SYS_OPENAT))
    by reflexivity.
  split; [exact Hro|].
  exact (proj1 (table_append_only 16 SYS_OPENAT _ _ _ _ _ Hro sample_run_open)).
Defined.

(** The sample machine boots into the four console descriptors. *)
Lemma vfsInit_boot_table_witness :
  let st0 := {| inodes := []; mem := sample_mem; world := 7 |} in
  inodes st0 = [] /\
  length (inodes (vfsInit st0)) = 4%nat /\
  fst (AllocInode (inodes (vfsInit st0))) = 4.
Proof.
  intros st0.
  assert (Hempty : inodes st0 = []) by reflexivity.
  destruct (vfsInit_boot_table st0 Hempty) as (Htbl & _ & Hnext & _).
  split; [exact Hempty|]. split; [rewrite Htbl; reflexivity | exact Hnext].
Defined.

(** Closing descriptor 1 after boot: [EINVAL], and the handle is gone. *)
Lemma close_without_closer_witness :
  let rq := sample_request [1] in
  nth 0 (Args rq) 0 = 1 /\
  open_on sample_boot 1 (NewFile None (Some sample_console_Writer) None) /\
  exists rq',
    fscall 16 SYS_CLOSE rq sample_boot
      = Ok (with_inodes (alter Release 1%nat (inodes sample_boot)) sample_boot,
            rq') /\
    Ret rq' = sample_Error (Errno EINVAL).
Proof.
  intros rq.
  destruct sample_open_on_boot as (_ & Hout & _).
  destruct (close_without_closer 16 rq sample_boot 1 None
              (Some sample_console_Writer) eq_refl Hout)
    as (rq' & Hrun & Hret & _).
  split; [reflexivity|]. split; [exact Hout|].
  exists rq'. split; [exact Hrun | exact Hret].
Defined.

(** An ioctl on descriptor 0 after boot reaches the console. *)
Lemma ioctl_forwarded_witness :
  let rq := sample_request [0; 21523; 700] in
  nth 0 (Args rq) 0 = 0 /\
  open_on sample_boot 0 sample_stdin /\
  ioctl_capability sample_stdin = Some sample_console_Ioctl /\
  sysIoctl 0 21523 700 sample_boot = Ok (sample_boot, None).
Proof.
  intros rq.
  destruct sample_open_on_boot as (Hin & _ & _).
  assert (Hcap : ioctl_capability sample_stdin = Some sample_console_Ioctl)
    by reflexivity.
  assert (Hctl : sample_console_Ioctl (nth 1 (Args rq) 0) (nth 2 (Args rq) 0)
                   (mem sample_boot) (world sample_boot)
                 = (mem sample_boot, world sample_boot, None))
    by reflexivity.
  destruct (ioctl_forwarded 16 rq sample_boot 0 sample_stdin
              sample_console_Ioctl (mem sample_boot) (world sample_boot) None
              eq_refl Hin Hcap Hctl) as [Hsys _].
  split; [reflexivity|]. split; [exact Hin|]. split; [exact Hcap|].
  exact Hsys.
Defined.



(** The path at address 100 of the sample memory has eight bytes. *)
Lemma cstring_stops_at_first_zero_witness :
  (forall i, (i < 8)%nat -> bytes sample_mem (100 + Z.of_nat i) <> 0) /\
  bytes sample_mem (100 + Z.of_nat 8) = 0 /\
  (8 < 16)%nat /\
  cstring 16 sample_mem 100 = Ok "/missing"%string.
Proof.
  assert (Hpre : forall i, (i < 8)%nat ->
                           bytes sample_mem (100 + Z.of_nat i) <> 0).
  { intros i Hi.
    do 8 (destruct i as [|i]; [vm_compute; discriminate|]). lia. }
  assert (Hzero : bytes sample_mem (100 + Z.of_nat 8) = 0) by reflexivity.
  assert (Hfuel : (8 < 16)%nat) by lia.
  destruct (cstring_stops_at_first_zero 16 sample_mem 100 8 Hpre Hzero)
    as [Hfound _].
  destruct (Hfound Hfuel) as [Hres _].
  split; [exact Hpre|]. split; [exact Hzero|]. split; [exact Hfuel|].
  exact (eq_trans Hres eq_refl).
Defined.

(** A path written at address 900 is read back. *)
Lemma cstring_reads_back_witness :
  Forall (fun b => b <> 0) (bytes_of_string "/etc/motd") /\
  (String.length "/etc/motd" < 16)%nat /\
  cstring 16 (store_bytes sample_mem 900 (bytes_of_string "/etc/motd" ++ [0]))
          900 = Ok "/etc/motd"%string.
Proof.
  assert (Hnz : Forall (fun b => b <> 0) (bytes_of_string "/etc/motd"))
    by (repeat constructor; discriminate).
  assert (Hfuel : (String.length "/etc/motd" < 16)%nat) by (simpl; lia).
  split; [exact Hnz|]. split; [exact Hfuel|].
  exact (cstring_reads_back 16 sample_mem 900 "/etc/motd" Hnz Hfuel).
Defined.

(** A read on the write-only descriptor 1: the error comes with count 0. *)
Lemma transfer_error_means_nothing_moved_witness :
  sysRead 1 300 4 sample_boot = Ok (sample_boot, (0, Some (Errno EINVAL))) /\
  0 = 0 /\ is_EOF (Errno EINVAL) = false.
Proof.
  assert (Hrun : sysRead 1 300 4 sample_boot
                 = Ok (sample_boot, (0, Some (Errno EINVAL)))) by reflexivity.
  split; [exact Hrun|].
  exact (proj1 (transfer_error_means_nothing_moved 1%nat 300 4 sample_boot
                  sample_boot 0 (Errno EINVAL)) Hrun).
Defined.

